(** * Kubeapps dashboard: resource references and the operator-instance view

    A shallow embedding of [shared/ResourceRef.ts] ([fromCRD] and the
    [ResourceRef] class) and of the lifecycle and event handlers of
    [components/OperatorInstance/OperatorInstance.tsx].

    Conventions of the embedding.
    - A TypeScript [string] is a [string]; an optional property or argument
      ([x?: string]) is an [option]; JavaScript truthiness is written out
      ([truthy_string]: the empty string and [undefined] are falsy).
    - Values of type [any] (the filter of a reference, an owner reference,
      a fetched JSON document) are [JsVal]s: the JSON fragment of JavaScript,
      objects as association lists in property order.
    - A [throw] is the [Throw] constructor of [Exc]; a promise that has
      settled is a [Promise].
    - The static class [Kube] is not part of the embedded sources: it is the
      interface [KubeAPI], over which every definition that calls it is
      parameterised.
    - The component's effects ([setState] and the calls of the function
      props) are threaded through the monad [Eff], which keeps the state and
      the call log written before an exception. *)

From stdpp Require Import base option list strings.
From Stdlib Require Import ZArith Ascii DecimalString.

#[local] Set Warnings "-register-all".
Local Open Scope string_scope.

(** ** Exceptions and promises *)

Inductive JsError : Type :=
  | Error (message : string)
  | TypeError (message : string).

Inductive Exc (A : Type) : Type :=
  | Ok (a : A)
  | Throw (e : JsError).
Arguments Ok {A} a.
Arguments Throw {A} e.

Definition exc_bind {A B} (m : Exc A) (k : A → Exc B) : Exc B :=
  match m with
  | Ok a => k a
  | Throw e => Throw e
  end.

(** A settled promise. *)
Inductive Promise (A : Type) : Type :=
  | Resolved (a : A)
  | Rejected (e : JsError).
Arguments Resolved {A} a.
Arguments Rejected {A} e.

(** The promise an [async] function returns for the outcome of its body. *)
Definition async {A} (body : Exc A) : Promise A :=
  match body with
  | Ok a => Resolved a
  | Throw e => Rejected e
  end.

(** [await p] inside an [async] body: a rejection is rethrown. *)
Definition await {A} (p : Promise A) : Exc A :=
  match p with
  | Resolved a => Ok a
  | Rejected e => Throw e
  end.

(** ** JavaScript values of type [any] (JSON fragment) *)

Inductive JsVal : Type :=
  | JUndefined
  | JNull
  | JBool (b : bool)
  | JNum (n : Z)
  | JStr (s : string)
  | JArr (elems : list JsVal)
  | JObj (props : list (string * JsVal)).

(** An object literal or a parsed JSON object: its own properties in order. *)
Abbreviation JsObject := (list (string * JsVal)).

(** [ToBoolean]. Arrays and objects are truthy, also when empty. *)
Definition truthy (v : JsVal) : bool :=
  match v with
  | JUndefined | JNull => false
  | JBool b => b
  | JNum n => negb (n =? 0)%Z
  | JStr s => negb (String.eqb s "")
  | JArr _ | JObj _ => true
  end.

(** Truthiness of a [string | undefined]. *)
Definition truthy_string (o : option string) : bool :=
  match o with
  | Some s => negb (String.eqb s "")
  | None => false
  end.

(** [a || b] on [string | undefined]. *)
Definition or_string (a b : option string) : option string :=
  if truthy_string a then a else b.

(** [o[key]] for an own property of an object; [None] is [undefined]
    because the property is missing. *)
Fixpoint obj_get (key : string) (o : JsObject) : option JsVal :=
  match o with
  | [] => None
  | (k, v) :: rest => if String.eqb k key then Some v else obj_get key rest
  end.

(** [o[key] = v] on an object: an existing property keeps its position,
    a new one is added last. *)
Fixpoint obj_set (key : string) (v : JsVal) (o : JsObject) : JsObject :=
  match o with
  | [] => [(key, v)]
  | (k, w) :: rest =>
      if String.eqb k key then (k, v) :: rest else (k, w) :: obj_set key v rest
  end.

(** ** lodash: [matches] and [filter]

    The two lodash functions that [ResourceRef.getResource] imports, on
    [JsVal]s. The model follows lodash 4.17 ([baseMatches], [getMatchData],
    [matchesStrictComparable], [baseIsMatch], [baseIsEqual] with the partial
    and unordered comparison flags, [equalArrays], [equalObjects],
    [arrayFilter] and [baseFilter]). Outside the model: properties inherited
    from a prototype, numbers that are not integers, characters outside
    ASCII, and cyclic values. *)

Module lodash.

(** The property name of an array index. *)
Definition index_key (i : nat) : string :=
  NilZero.string_of_uint (Nat.to_uint i).

(** The characters of a string, each as a one-character string. *)
Fixpoint chars (s : string) : list JsVal :=
  match s with
  | EmptyString => []
  | String c rest => JStr (String c EmptyString) :: chars rest
  end.

(** The indexed entries [("0", x0); ("1", x1); ...] of an array-like,
    counting from [i]. *)
Fixpoint indexed (i : nat) (l : list JsVal) : JsObject :=
  match l with
  | [] => []
  | x :: rest => (index_key i, x) :: indexed (S i) rest
  end.

(** The own enumerable properties of [Object(v)], as [keys] lists them. *)
Definition entries (v : JsVal) : JsObject :=
  match v with
  | JObj props => props
  | JArr elems => indexed 0 elems
  | JStr s => indexed 0 (chars s)
  | JUndefined | JNull | JBool _ | JNum _ => []
  end.

(** The own properties of [Object(v)] that [v[key]] and [key in Object(v)]
    see: the enumerable ones and the [length] of arrays and strings. *)
Definition own_props (v : JsVal) : JsObject :=
  match v with
  | JArr elems => entries v ++ [("length", JNum (Z.of_nat (length elems)))]
  | JStr s => entries v ++ [("length", JNum (Z.of_nat (String.length s)))]
  | _ => entries v
  end.

(** [key in Object(v)] together with [v[key]]: [None] when the property is
    missing. *)
Definition get_prop (v : JsVal) (key : string) : option JsVal :=
  obj_get key (own_props v).

(** [v[key]]: a missing property reads as [undefined]. *)
Definition prop (v : JsVal) (key : string) : JsVal :=
  default JUndefined (get_prop v key).

(** [key in Object(v)]. *)
Definition has_prop (v : JsVal) (key : string) : bool :=
  bool_decide (is_Some (get_prop v key)).

(** [isObject]. *)
Definition isObject (v : JsVal) : bool :=
  match v with
  | JArr _ | JObj _ => true
  | _ => false
  end.

(** [a === b] between a value of the source, which [matches] deep-clones,
    and a value of the tested object: two arrays or two objects are never
    the same reference. *)
Definition strict_eq (a b : JsVal) : bool :=
  match a, b with
  | JUndefined, JUndefined => true
  | JNull, JNull => true
  | JBool x, JBool y => Bool.eqb x y
  | JNum x, JNum y => (x =? y)%Z
  | JStr x, JStr y => String.eqb x y
  | _, _ => false
  end.

(** [value === value && !isObject(value)]; no [JsVal] is NaN. *)
Definition isStrictComparable (v : JsVal) : bool := negb (isObject v).

(** [arraySome] in [equalArrays] with the [seen] cache: the first index of
    [other] that is not in [seen] and whose element [p] accepts. *)
Fixpoint arraySome_unseen (p : JsVal → bool) (seen : list nat)
    (othIndex : nat) (other : list JsVal) : option nat :=
  match other with
  | [] => None
  | othValue :: rest =>
      if negb (bool_decide (othIndex ∈ seen)) && p othValue
      then Some othIndex
      else arraySome_unseen p seen (S othIndex) rest
  end.

(** The [while] loop of [equalArrays] under the unordered flag; [eqs] holds
    [equalFunc(arrValue, _)] for the elements of [array] in order. *)
Fixpoint equalArrays_loop (eqs : list (JsVal → bool)) (other : list JsVal)
    (seen : list nat) : bool :=
  match eqs with
  | [] => true
  | eq_arrValue :: rest =>
      match arraySome_unseen eq_arrValue seen 0 other with
      | Some othIndex => equalArrays_loop rest other (othIndex :: seen)
      | None => false
      end
  end.

(** [baseIsEqual(value, other, COMPARE_PARTIAL_FLAG | COMPARE_UNORDERED_FLAG)]:
    [value] comes from the source and [other] from the tested object. *)
Fixpoint baseIsEqual (value other : JsVal) {struct value} : bool :=
  match value with
  | JArr array =>
      match other with
      | JArr oth =>
          (* equalArrays *)
          (length array <=? length oth)%nat
          && equalArrays_loop (baseIsEqual <$> array) oth []
      | _ => false
      end
  | JObj object =>
      match other with
      | JObj _ =>
          (* equalObjects *)
          (fix each (objProps : JsObject) : bool :=
             match objProps with
             | [] => true
             | (key, objValue) :: rest =>
                 match get_prop other key with
                 | Some othValue => baseIsEqual objValue othValue && each rest
                 | None => false
                 end
             end) object
      | _ => false
      end
  | _ => strict_eq value other
  end.

Definition MatchData : Type := list (string * JsVal * bool).

(** [getMatchData]: for each key of the source, the key, its value and
    whether the value is compared with [===]. *)
Definition getMatchData (source : JsVal) : MatchData :=
  (λ '(key, value), (key, value, isStrictComparable value)) <$> entries source.

Definition matchesStrictComparable (key : string) (srcValue : JsVal)
    (object : JsVal) : bool :=
  match object with
  | JUndefined | JNull => false
  | _ =>
      strict_eq (prop object key) srcValue
      && (negb (strict_eq srcValue JUndefined) || has_prop object key)
  end.

Definition baseIsMatch (object : JsVal) (matchData : MatchData) : bool :=
  match object with
  | JUndefined | JNull => bool_decide (length matchData = 0)
  | _ =>
      forallb (λ '(key, srcValue, strict),
                 if strict : bool
                 then strict_eq srcValue (prop object key)
                 else has_prop object key) matchData
      && forallb (λ '(key, srcValue, strict),
                    if strict : bool
                    then negb (strict_eq (prop object key) JUndefined
                               && negb (has_prop object key))
                    else baseIsEqual srcValue (prop object key)) matchData
  end.

Definition baseMatches (source : JsVal) : JsVal → bool :=
  let matchData := getMatchData source in
  match matchData with
  | [(key, srcValue, true)] => matchesStrictComparable key srcValue
  | _ => λ object, strict_eq object source || baseIsMatch object matchData
  end.

(** [_.matches(source)]: a deep clone of a [JsVal] is the value itself. *)
Definition matches (source : JsVal) : JsVal → bool := baseMatches source.

(** [isLength(value.length)] for the [length] property of [v]. *)
Definition arrayLike_length (v : JsVal) : option nat :=
  match get_prop v "length" with
  | Some (JNum n) =>
      if (0 <=? n)%Z && (n <=? 9007199254740991)%Z then Some (Z.to_nat n) else None
  | _ => None
  end.

(** The values [_.filter] visits, in order: the elements of an array or
    array-like by index, the own property values of any other object. *)
Definition collection_values (collection : JsVal) : list JsVal :=
  match collection with
  | JArr elems => elems
  | JUndefined | JNull => []
  | _ =>
      match arrayLike_length collection with
      | Some n => (λ i, prop collection (index_key i)) <$> seq 0 n
      | None => snd <$> entries collection
      end
  end.

(** [_.filter(collection, predicate)] for a function [predicate]. *)
Definition filter (collection : JsVal) (predicate : JsVal → bool) : list JsVal :=
  List.filter predicate (collection_values collection).

End lodash.

(** ** [shared/types.ts]

    The declarations file is not among the embedded sources. Each record
    has the fields that the embedded code reads or writes:
    [fromCRD] builds an [IResource] from [apiVersion], [kind] and
    [metadata.name]; the constructor of [ResourceRef] also reads
    [metadata.namespace]. *)

Abbreviation ResourceKind := string.

Module IResource.
Record Metadata : Type := {
  name : string;
  namespace : option string;
}.
Record t : Type := {
  apiVersion : string;
  kind : ResourceKind;
  metadata : Metadata;
}.
End IResource.

Module IClusterServiceVersionCRDResource.
Record t : Type := {
  kind : string;
  name : string;
}.
End IClusterServiceVersionCRDResource.

Module IClusterServiceVersionCRD.
Record t : Type := {
  description : string;
  kind : string;
  name : string;
  resources : list IClusterServiceVersionCRDResource.t;
}.
End IClusterServiceVersionCRD.

Module IClusterServiceVersion.
Record CustomResourceDefinitions : Type := {
  owned : list IClusterServiceVersionCRD.t;
}.
Record Spec : Type := {
  customresourcedefinitions : CustomResourceDefinitions;
}.
Record t : Type := {
  spec : Spec;
}.
End IClusterServiceVersion.

(** ** The [Kube] client, as an interface

    [shared/Kube.ts] is not among the embedded sources. Its static methods
    are the fields of [KubeAPI], with the argument and result types of their
    call sites in [ResourceRef]. *)

Class KubeAPI : Type := {
  Kube_resourceAPIVersion : ResourceKind → string;
  Kube_resourcePlural : ResourceKind → string;
  Kube_getResourceURL : string → string → string → string → string;
  Kube_watchResourceURL : string → string → string → string → string;
  (** The settled promise of the request. It resolves to an [IResource],
      that is, to an object. *)
  Kube_getResource : string → string → string → string → Promise JsObject;
}.

(** ** [shared/ResourceRef.ts] *)

Module ResourceRef.

(** The fields of the class [ResourceRef]. *)
Record t : Type := {
  apiVersion : string;
  kind : ResourceKind;
  name : string;
  namespace : string;
  filter : JsVal;
}.

(** [new ResourceRef(r, defaultNamespace, defaultFilter)]. An optional
    argument that is left out is [None]; a filter that is left out is
    stored as [undefined]. Past the test of [!namespace] the namespace is a
    string, and not the empty one. *)
Definition constructor (r : IResource.t) (defaultNamespace : option string)
    (defaultFilter : option JsVal) : Exc t :=
  let this_apiVersion := IResource.apiVersion r in
  let this_kind := IResource.kind r in
  let this_name := IResource.name (IResource.metadata r) in
  let namespace := or_string (IResource.namespace (IResource.metadata r)) defaultNamespace in
  if negb (truthy_string namespace)
  then Throw (Error ("Namespace missing for resource " ++ this_name
                     ++ ", define a default namespace"))
  else
    Ok {| apiVersion := this_apiVersion;
          kind := this_kind;
          name := this_name;
          namespace := default "" namespace;
          filter := default JUndefined defaultFilter |}.

Section WithKube.
Context `{KubeAPI}.

Definition fromCRD (r : IClusterServiceVersionCRDResource.t)
    (namespace : string) (ownerReference : JsVal) : Exc t :=
  let resource :=
    {| IResource.apiVersion :=
         Kube_resourceAPIVersion (IClusterServiceVersionCRDResource.kind r);
       IResource.kind := IClusterServiceVersionCRDResource.kind r;
       IResource.metadata :=
         {| IResource.name := IClusterServiceVersionCRDResource.name r;
            IResource.namespace := None |} |} in
  constructor resource (Some namespace)
    (Some (JObj [("metadata", JObj [("ownerReferences", JArr [ownerReference])])])).

Definition getResourceURL (this : t) : string :=
  Kube_getResourceURL (apiVersion this) (Kube_resourcePlural (kind this))
    (namespace this) (name this).

Definition watchResourceURL (this : t) : string :=
  Kube_watchResourceURL (apiVersion this) (Kube_resourcePlural (kind this))
    (namespace this) (name this).

(** The body of [getResource] after the [await]: [resource] is the
    fetched object, which the assignment to [items] updates in place. *)
Definition getResource_filtered (this : t) (resource : JsObject) : JsObject :=
  if truthy (default JUndefined (obj_get "items" resource))
  then
    obj_set "items"
      (JArr (lodash.filter (default JUndefined (obj_get "items" resource))
               (lodash.matches (filter this))))
      resource
  else resource.

Definition getResource (this : t) : Promise JsObject :=
  async (
    exc_bind
      (await (Kube_getResource (apiVersion this) (Kube_resourcePlural (kind this))
                (namespace this) (name this)))
      (λ resource, Ok (getResource_filtered this resource))).

End WithKube.

End ResourceRef.

(** ** Objects compared by reference *)

(** An object held by a prop: [!==] on two of them compares the references,
    not the contents. *)
Record Ref (A : Type) : Type := mkRef {
  addr : nat;
  deref : A;
}.
Arguments mkRef {A} addr deref.
Arguments addr {A} r.
Arguments deref {A} r.

(** [a !== b] for two values of type [object | undefined]. *)
Definition strict_neq_ref {A} (a b : option (Ref A)) : bool :=
  match a, b with
  | None, None => false
  | Some x, Some y => negb (addr x =? addr y)%nat
  | _, _ => true
  end.

(** [s.split(sep)] for a separator of one character. *)
Fixpoint split (sep : ascii) (s : string) : list string :=
  match s with
  | EmptyString => [EmptyString]
  | String c rest =>
      if Ascii.eqb c sep then EmptyString :: split sep rest
      else
        match split sep rest with
        | [] => [String c EmptyString]
        | first :: others => String c first :: others
        end
  end.

(** [for (x of l) f(x)] over an accumulator that [f] may abandon by
    throwing, as [Array.prototype.forEach] does with a callback that
    mutates a local object. *)
Fixpoint forEach {A S} (f : S → A → Exc S) (l : list A) (acc : S) : Exc S :=
  match l with
  | [] => Ok acc
  | x :: rest => exc_bind (f acc x) (forEach f rest)
  end.

(** ** [components/AppView/AppView.tsx]: [IPartialAppViewState]

    The fields are those of the object literal that [componentDidUpdate]
    fills. *)
Module IPartialAppViewState.
Record t : Type := {
  ingressRefs : list ResourceRef.t;
  deployRefs : list ResourceRef.t;
  statefulSetRefs : list ResourceRef.t;
  daemonSetRefs : list ResourceRef.t;
  otherResources : list ResourceRef.t;
  serviceRefs : list ResourceRef.t;
  secretRefs : list ResourceRef.t;
}.
End IPartialAppViewState.

(** ** [components/OperatorInstance/OperatorInstance.tsx] *)

Module OperatorInstance.
Import IPartialAppViewState.

(** [IOperatorInstanceProps]. Of the three function props, [getResource]
    and [push] are called for their effect only; [deleteResource] is
    awaited, so the prop carries the settled promise of each call. *)
Record IOperatorInstanceProps : Type := {
  isFetching : bool;
  namespace : string;
  csvName : string;
  crdName : string;
  instanceName : string;
  deleteResource : string → string → option (Ref IResource.t) → Promise bool;
  error : option JsError;
  resource : option (Ref IResource.t);
  csv : option (Ref IClusterServiceVersion.t);
}.

Record IOperatorInstanceState : Type := {
  modalIsOpen : bool;
  crd : option IClusterServiceVersionCRD.t;
  resources : option IPartialAppViewState.t;
}.

(** The initial value of the class property [state]. *)
Definition initialState : IOperatorInstanceState :=
  {| modalIsOpen := false; crd := None; resources := None |}.

(** The argument of [setState]: the properties the object literal has.
    [{ crd }] with an undefined [crd] still has the property. *)
Record StateUpdate : Type := {
  upd_modalIsOpen : option bool;
  upd_crd : option (option IClusterServiceVersionCRD.t);
  upd_resources : option (option IPartialAppViewState.t);
}.

(** The shallow merge that [setState] makes. *)
Definition merge (s : IOperatorInstanceState) (u : StateUpdate) : IOperatorInstanceState :=
  {| modalIsOpen := default (modalIsOpen s) (upd_modalIsOpen u);
     crd := default (crd s) (upd_crd u);
     resources := default (resources s) (upd_resources u) |}.

(** What the component does to the outside, in order. *)
Inductive Call : Type :=
  | call_getResource (namespace csvName crdName resourceName : string)
  | call_deleteResource (namespace crdName : string) (resource : option (Ref IResource.t))
  | call_push (location : string)
  | call_setState (update : StateUpdate).

Record World : Type := {
  state : IOperatorInstanceState;
  calls : list Call;
}.

(** A method body: it reads and updates the component state, records its
    calls, and returns or throws. What was done before a throw stays. *)
Definition Eff (A : Type) : Type := World → Exc A * World.

#[export] Instance Eff_ret : MRet Eff := λ A a w, (Ok a, w).
#[export] Instance Eff_bind : MBind Eff := λ A B k m w,
  match m w with
  | (Ok a, w') => k a w'
  | (Throw e, w') => (Throw e, w')
  end.

Definition this_state : Eff IOperatorInstanceState := λ w, (Ok (state w), w).

Definition emit (c : Call) : Eff unit :=
  λ w, (Ok tt, {| state := state w; calls := calls w ++ [c] |}).

(** [this.setState(u)]. The merge is applied at once: no method reads
    [this.state] after it has called [setState]. React applies the updates
    that a method has queued when the method returns, and drops them when it
    throws: the state that a run leaves is that of the component for a run
    that returns, and for a run that has not called [setState]. *)
Definition setState (u : StateUpdate) : Eff unit :=
  λ w, (Ok tt, {| state := merge (state w) u; calls := calls w ++ [call_setState u] |}).

Definition lift {A} (m : Exc A) : Eff A := λ w, (m, w).

(** [result.<bucket>.push(ref)], one function per bucket. *)
Definition push_ingressRefs (result : IPartialAppViewState.t) (ref : ResourceRef.t) :=
  {| ingressRefs := ingressRefs result ++ [ref];
     deployRefs := deployRefs result;
     statefulSetRefs := statefulSetRefs result;
     daemonSetRefs := daemonSetRefs result;
     otherResources := otherResources result;
     serviceRefs := serviceRefs result;
     secretRefs := secretRefs result |}.
Definition push_deployRefs (result : IPartialAppViewState.t) (ref : ResourceRef.t) :=
  {| ingressRefs := ingressRefs result;
     deployRefs := deployRefs result ++ [ref];
     statefulSetRefs := statefulSetRefs result;
     daemonSetRefs := daemonSetRefs result;
     otherResources := otherResources result;
     serviceRefs := serviceRefs result;
     secretRefs := secretRefs result |}.
Definition push_statefulSetRefs (result : IPartialAppViewState.t) (ref : ResourceRef.t) :=
  {| ingressRefs := ingressRefs result;
     deployRefs := deployRefs result;
     statefulSetRefs := statefulSetRefs result ++ [ref];
     daemonSetRefs := daemonSetRefs result;
     otherResources := otherResources result;
     serviceRefs := serviceRefs result;
     secretRefs := secretRefs result |}.
Definition push_daemonSetRefs (result : IPartialAppViewState.t) (ref : ResourceRef.t) :=
  {| ingressRefs := ingressRefs result;
     deployRefs := deployRefs result;
     statefulSetRefs := statefulSetRefs result;
     daemonSetRefs := daemonSetRefs result ++ [ref];
     otherResources := otherResources result;
     serviceRefs := serviceRefs result;
     secretRefs := secretRefs result |}.
Definition push_otherResources (result : IPartialAppViewState.t) (ref : ResourceRef.t) :=
  {| ingressRefs := ingressRefs result;
     deployRefs := deployRefs result;
     statefulSetRefs := statefulSetRefs result;
     daemonSetRefs := daemonSetRefs result;
     otherResources := otherResources result ++ [ref];
     serviceRefs := serviceRefs result;
     secretRefs := secretRefs result |}.
Definition push_serviceRefs (result : IPartialAppViewState.t) (ref : ResourceRef.t) :=
  {| ingressRefs := ingressRefs result;
     deployRefs := deployRefs result;
     statefulSetRefs := statefulSetRefs result;
     daemonSetRefs := daemonSetRefs result;
     otherResources := otherResources result;
     serviceRefs := serviceRefs result ++ [ref];
     secretRefs := secretRefs result |}.
Definition push_secretRefs (result : IPartialAppViewState.t) (ref : ResourceRef.t) :=
  {| ingressRefs := ingressRefs result;
     deployRefs := deployRefs result;
     statefulSetRefs := statefulSetRefs result;
     daemonSetRefs := daemonSetRefs result;
     otherResources := otherResources result;
     serviceRefs := serviceRefs result;
     secretRefs := secretRefs result ++ [ref] |}.

(** The object literals passed to [setState]. *)
Definition set_crd (crd : option IClusterServiceVersionCRD.t) : StateUpdate :=
  {| upd_modalIsOpen := None; upd_crd := Some crd; upd_resources := None |}.
Definition set_resources (result : IPartialAppViewState.t) : StateUpdate :=
  {| upd_modalIsOpen := None; upd_crd := None; upd_resources := Some (Some result) |}.
Definition set_modalIsOpen_true : StateUpdate :=
  {| upd_modalIsOpen := Some true; upd_crd := None; upd_resources := None |}.
Definition set_modalIsOpen_false : StateUpdate :=
  {| upd_modalIsOpen := Some false; upd_crd := None; upd_resources := None |}.

Section Component.
Context `{KubeAPI}.
(** [this.props]. *)
Variable props : IOperatorInstanceProps.

Definition componentDidMount : Eff unit :=
  emit (call_getResource (namespace props) (csvName props) (crdName props)
          (instanceName props)).

Definition emptyResult : IPartialAppViewState.t :=
  {| ingressRefs := []; deployRefs := []; statefulSetRefs := [];
     daemonSetRefs := []; otherResources := []; serviceRefs := [];
     secretRefs := [] |}.

(** The callback of [crd.resources.forEach]: the [switch] on [r.kind]
    and the [push] of the chosen case. *)
Definition collectRef (ownerRef : JsVal) (result : IPartialAppViewState.t)
    (r : IClusterServiceVersionCRDResource.t) : Exc IPartialAppViewState.t :=
  let kind := IClusterServiceVersionCRDResource.kind r in
  if String.eqb kind "Deployment" then
    exc_bind (ResourceRef.fromCRD r (namespace props) ownerRef)
      (λ ref, Ok (push_deployRefs result ref))
  else if String.eqb kind "StatefulSet" then
    exc_bind (ResourceRef.fromCRD r (namespace props) ownerRef)
      (λ ref, Ok (push_statefulSetRefs result ref))
  else if String.eqb kind "DaemonSet" then
    exc_bind (ResourceRef.fromCRD r (namespace props) ownerRef)
      (λ ref, Ok (push_daemonSetRefs result ref))
  else if String.eqb kind "Service" then
    exc_bind (ResourceRef.fromCRD r (namespace props) ownerRef)
      (λ ref, Ok (push_serviceRefs result ref))
  else if String.eqb kind "Ingress" then
    exc_bind (ResourceRef.fromCRD r (namespace props) ownerRef)
      (λ ref, Ok (push_ingressRefs result ref))
  else if String.eqb kind "Secret" then
    exc_bind (ResourceRef.fromCRD r (namespace props) ownerRef)
      (λ ref, Ok (push_secretRefs result ref))
  else
    exc_bind (ResourceRef.fromCRD r (namespace props) ownerRef)
      (λ ref, Ok (push_otherResources result ref)).

(** The object literal [{ name: resource.metadata.name, kind: resource.kind }]. *)
Definition ownerRefOf (resource : IResource.t) : JsVal :=
  JObj [("name", JStr (IResource.name (IResource.metadata resource)));
        ("kind", JStr (IResource.kind resource))].

(** The block guarded by [crd && resource], up to its [setState]. *)
Definition collectRefs (crd : IClusterServiceVersionCRD.t)
    (resource : IResource.t) : Exc IPartialAppViewState.t :=
  let result := emptyResult in
  let ownerRef := ownerRefOf resource in
  forEach (collectRef ownerRef) (IClusterServiceVersionCRD.resources crd) result.

Definition componentDidUpdate (prevProps : IOperatorInstanceProps) : Eff unit :=
  if negb (String.eqb (namespace prevProps) (namespace props)) then
    emit (call_getResource (namespace props) (csvName props) (crdName props)
            (instanceName props))
  else
    this ← this_state;
    let crd := crd this in
    if strict_neq_ref (csv props) (csv prevProps)
       || strict_neq_ref (resource props) (resource prevProps)
    then
      crd ← match csv props, resource props with
            | Some csv, Some resource =>
                let crd :=
                  List.find
                    (λ c, String.eqb (IClusterServiceVersionCRD.kind c)
                            (IResource.kind (deref resource)))
                    (IClusterServiceVersion.owned
                       (IClusterServiceVersion.customresourcedefinitions
                          (IClusterServiceVersion.spec (deref csv)))) in
                setState (set_crd crd);;
                mret crd
            | _, _ => mret crd
            end;
      match crd, resource props with
      | Some crd, Some resource =>
          result ← lift (collectRefs crd (deref resource));
          setState (set_resources result)
      | _, _ => mret tt
      end
    else mret tt.

Definition openModal : Eff unit := setState set_modalIsOpen_true.

(** [closeModal] is [async] without an [await]: its body runs when it is
    called. *)
Definition closeModal : Eff unit := setState set_modalIsOpen_false.

(** [handleDeleteClick] up to its [await]: the arguments are evaluated
    from left to right, [crd!.name] throws a [TypeError] on an undefined
    [crd], then [deleteResource] is called. *)
Definition handleDeleteClick_call : Eff (Promise bool) :=
  this ← this_state;
  let namespace := namespace props in
  let resource := resource props in
  crdName ← lift (match crd this with
                  | Some crd =>
                      Ok (hd "" (split "." (IClusterServiceVersionCRD.name crd)))
                  | None =>
                      Throw (TypeError "Cannot read property 'name' of undefined")
                  end);
  emit (call_deleteResource namespace crdName resource);;
  mret (deleteResource props namespace crdName resource).

(** [handleDeleteClick] after the [await], with the value awaited. *)
Definition handleDeleteClick_resume (deleted : bool) : Eff unit :=
  closeModal;;
  if deleted then emit (call_push ("/apps/ns/" ++ namespace props)) else mret tt.

Definition handleDeleteClick : Eff unit :=
  promise ← handleDeleteClick_call;
  deleted ← lift (await promise);
  handleDeleteClick_resume deleted.

End Component.

(** A method run on a component in the state [s], with an empty call log. *)
Definition run {A} (m : Eff A) (s : IOperatorInstanceState) : Exc A * World :=
  m {| state := s; calls := [] |}.

End OperatorInstance.

(** ** Notions of the specification *)

(** A namespace that is "absent or empty". *)
Definition absent_or_empty (o : option string) : Prop := o = None ∨ o = Some "".

(** The coordinates of a reference: API version, pluralised kind, namespace
    and name. *)
Definition coordinates `{KubeAPI} (ref : ResourceRef.t) : string * string * string * string :=
  (ResourceRef.apiVersion ref, Kube_resourcePlural (ResourceRef.kind ref),
   ResourceRef.namespace ref, ResourceRef.name ref).

(** The substring of [s] before its first [sep]; all of [s] when [sep] does
    not occur. *)
Fixpoint before_first (sep : ascii) (s : string) : string :=
  match s with
  | EmptyString => EmptyString
  | String c rest => if Ascii.eqb c sep then EmptyString else String c (before_first sep rest)
  end.

(** The buckets of an [IPartialAppViewState], and the bucket the
    specification assigns to a kind. *)
Inductive Bucket : Type :=
  | DeployBucket | StatefulSetBucket | DaemonSetBucket | ServiceBucket
  | IngressBucket | SecretBucket | OtherBucket.

#[export] Instance Bucket_eq_dec : EqDecision Bucket.
Proof. solve_decision. Defined.

Definition bucketOf (kind : string) : Bucket :=
  if decide (kind = "Deployment") then DeployBucket
  else if decide (kind = "StatefulSet") then StatefulSetBucket
  else if decide (kind = "DaemonSet") then DaemonSetBucket
  else if decide (kind = "Service") then ServiceBucket
  else if decide (kind = "Ingress") then IngressBucket
  else if decide (kind = "Secret") then SecretBucket
  else OtherBucket.

Definition bucket (b : Bucket) (s : IPartialAppViewState.t) : list ResourceRef.t :=
  match b with
  | DeployBucket => IPartialAppViewState.deployRefs s
  | StatefulSetBucket => IPartialAppViewState.statefulSetRefs s
  | DaemonSetBucket => IPartialAppViewState.daemonSetRefs s
  | ServiceBucket => IPartialAppViewState.serviceRefs s
  | IngressBucket => IPartialAppViewState.ingressRefs s
  | SecretBucket => IPartialAppViewState.secretRefs s
  | OtherBucket => IPartialAppViewState.otherResources s
  end.

Definition allBuckets : list Bucket :=
  [DeployBucket; StatefulSetBucket; DaemonSetBucket; ServiceBucket;
   IngressBucket; SecretBucket; OtherBucket].

(** The number of references in all buckets together. *)
Definition totalRefs (s : IPartialAppViewState.t) : nat :=
  sum_list ((λ b, length (bucket b s)) <$> allBuckets).

(** The owned CRD that [componentDidUpdate] looks up for a resource. *)
Definition ownedCRDs (csv : IClusterServiceVersion.t) : list IClusterServiceVersionCRD.t :=
  IClusterServiceVersion.owned
    (IClusterServiceVersion.customresourcedefinitions (IClusterServiceVersion.spec csv)).

(** [c] is the first element of [l] of the kind [kind]. *)
Definition first_of_kind (kind : string) (l : list IClusterServiceVersionCRD.t)
    (c : IClusterServiceVersionCRD.t) : Prop :=
  ∃ i, l !! i = Some c
       ∧ IClusterServiceVersionCRD.kind c = kind
       ∧ ∀ j c', j < i → l !! j = Some c' → IClusterServiceVersionCRD.kind c' ≠ kind.

(** The [csv] or the [resource] prop has changed. *)
Definition csv_or_resource_changed (props prevProps : OperatorInstance.IOperatorInstanceProps) : Prop :=
  strict_neq_ref (OperatorInstance.csv props) (OperatorInstance.csv prevProps) = true
  ∨ strict_neq_ref (OperatorInstance.resource props) (OperatorInstance.resource prevProps) = true.

(** The state in which [componentDidUpdate] leaves a component that was in
    the state [s]. *)
Definition state_after_update `{KubeAPI} (props prevProps : OperatorInstance.IOperatorInstanceProps)
    (s : OperatorInstance.IOperatorInstanceState) : OperatorInstance.IOperatorInstanceState :=
  OperatorInstance.state
    (OperatorInstance.run (OperatorInstance.componentDidUpdate props prevProps) s).2.

(** The calls that [componentDidUpdate] makes on such a component. *)
Definition calls_of_update `{KubeAPI} (props prevProps : OperatorInstance.IOperatorInstanceProps)
    (s : OperatorInstance.IOperatorInstanceState) : list OperatorInstance.Call :=
  OperatorInstance.calls
    (OperatorInstance.run (OperatorInstance.componentDidUpdate props prevProps) s).2.

(** The crd lookup without a condition on the namespace: every update in
    which the [csv] or the [resource] prop has changed and both are present
    leaves in [crd] the owned CRD found for the kind of the resource. *)
Definition crd_set_on_every_change `{KubeAPI} : Prop :=
  ∀ (props prevProps : OperatorInstance.IOperatorInstanceProps)
    (s : OperatorInstance.IOperatorInstanceState)
    (csv : Ref IClusterServiceVersion.t) (resource : Ref IResource.t),
    csv_or_resource_changed props prevProps →
    OperatorInstance.csv props = Some csv →
    OperatorInstance.resource props = Some resource →
    OperatorInstance.crd (state_after_update props prevProps s) =
      List.find (λ c, String.eqb (IClusterServiceVersionCRD.kind c)
                        (IResource.kind (deref resource)))
        (ownedCRDs (deref csv)).

(** The deletion without a condition on the state: in every state of the
    component, [handleDeleteClick] calls [deleteResource] with the namespace
    and the resource of the props, under some name of CRD. *)
Definition deleteResource_called_on_every_confirm : Prop :=
  ∀ (props : OperatorInstance.IOperatorInstanceProps)
    (s : OperatorInstance.IOperatorInstanceState),
    ∃ crdName,
      OperatorInstance.call_deleteResource (OperatorInstance.namespace props) crdName
        (OperatorInstance.resource props)
      ∈ OperatorInstance.calls
          (OperatorInstance.run (OperatorInstance.handleDeleteClick props) s).2.

(** ** A cluster to run the definitions on

    An instance of [KubeAPI] and a small operator, for the examples: the
    operator owns the kind [Foo], whose instances own two deployments and a
    pod. The request answers with a list of three deployments, of which the
    first is owned by the instance [foo]. *)
Module Sample.

Definition ownedBy (kind name : string) : JsVal :=
  JArr [JObj [("apiVersion", JStr "example.com/v1"); ("kind", JStr kind);
              ("name", JStr name); ("uid", JStr "1f0c")]].

Definition deployment (name : string) (owners : option JsVal) : JsVal :=
  JObj [("kind", JStr "Deployment");
        ("metadata",
         JObj (("name", JStr name)
               :: match owners with
                  | Some o => [("ownerReferences", o)]
                  | None => []
                  end))].

Definition deployments : list JsVal :=
  [deployment "web" (Some (ownedBy "Foo" "foo"));
   deployment "db" (Some (ownedBy "Bar" "foo"));
   deployment "cache" None].

Definition deploymentList : JsObject :=
  [("kind", JStr "DeploymentList"); ("items", JArr deployments);
   ("metadata", JObj [])].

Definition kube : KubeAPI := {|
  Kube_resourceAPIVersion kind := if String.eqb kind "Deployment" then "apps/v1" else "v1";
  Kube_resourcePlural kind := String.append kind "s";
  Kube_getResourceURL apiVersion resource namespace name :=
    "api/kube/apis/" ++ apiVersion ++ "/namespaces/" ++ namespace ++ "/" ++ resource
    ++ "/" ++ name;
  Kube_watchResourceURL apiVersion resource namespace name :=
    "ws/apis/" ++ apiVersion ++ "/namespaces/" ++ namespace ++ "/" ++ resource
    ++ "?watch=true";
  Kube_getResource apiVersion resource namespace name := Resolved deploymentList;
|}.

Definition owned (kind name : string) : IClusterServiceVersionCRDResource.t :=
  {| IClusterServiceVersionCRDResource.kind := kind;
     IClusterServiceVersionCRDResource.name := name |}.

Definition fooCRD : IClusterServiceVersionCRD.t :=
  {| IClusterServiceVersionCRD.description := "A foo";
     IClusterServiceVersionCRD.kind := "Foo";
     IClusterServiceVersionCRD.name := "foos.example.com";
     IClusterServiceVersionCRD.resources :=
       [owned "Deployment" ""; owned "Pod" ""; owned "Deployment" "extra"] |}.

Definition csv : IClusterServiceVersion.t :=
  {| IClusterServiceVersion.spec :=
       {| IClusterServiceVersion.customresourcedefinitions :=
            {| IClusterServiceVersion.owned := [fooCRD] |} |} |}.

Definition foo : IResource.t :=
  {| IResource.apiVersion := "example.com/v1";
     IResource.kind := "Foo";
     IResource.metadata :=
       {| IResource.name := "foo"; IResource.namespace := Some "team-a" |} |}.

(** The props before anything is loaded, and after the CSV and the
    instance have arrived, in the namespace [ns]; [deleted] is what
    [deleteResource] resolves to. *)
Definition loading (ns : string) (deleted : bool) : OperatorInstance.IOperatorInstanceProps :=
  {| OperatorInstance.isFetching := true;
     OperatorInstance.namespace := ns;
     OperatorInstance.csvName := "foo-operator.v1";
     OperatorInstance.crdName := "foos.example.com";
     OperatorInstance.instanceName := "foo";
     OperatorInstance.deleteResource := λ _ _ _, Resolved deleted;
     OperatorInstance.error := None;
     OperatorInstance.resource := None;
     OperatorInstance.csv := None |}.

Definition loaded (ns : string) (deleted : bool) : OperatorInstance.IOperatorInstanceProps :=
  {| OperatorInstance.isFetching := false;
     OperatorInstance.namespace := ns;
     OperatorInstance.csvName := "foo-operator.v1";
     OperatorInstance.crdName := "foos.example.com";
     OperatorInstance.instanceName := "foo";
     OperatorInstance.deleteResource := λ _ _ _, Resolved deleted;
     OperatorInstance.error := None;
     OperatorInstance.resource := Some (mkRef 1 foo);
     OperatorInstance.csv := Some (mkRef 2 csv) |}.

(** The component state once [fooCRD] has been found. *)
Definition withCRD : OperatorInstance.IOperatorInstanceState :=
  {| OperatorInstance.modalIsOpen := true;
     OperatorInstance.crd := Some fooCRD;
     OperatorInstance.resources := None |}.

(** The references of the instance [foo] in the namespace [team-a]. *)
Definition refs : IPartialAppViewState.t :=
  Eval vm_compute in
    match OperatorInstance.collectRefs (H := kube) (loaded "team-a" true) fooCRD foo with
    | Ok result => result
    | Throw _ => OperatorInstance.emptyResult
    end.

End Sample.

(** ** Notions for the further properties *)

(** The JSON value [item] is an object whose [metadata.ownerReferences] is
    an array with an element that is an object of the name [name] and the
    kind [kind]. *)
Definition lists_owner (name kind : string) (item : JsVal) : Prop :=
  ∃ (props metadata owner : JsObject) (owners : list JsVal),
    item = JObj props
    ∧ obj_get "metadata" props = Some (JObj metadata)
    ∧ obj_get "ownerReferences" metadata = Some (JArr owners)
    ∧ JObj owner ∈ owners
    ∧ obj_get "name" owner = Some (JStr name)
    ∧ obj_get "kind" owner = Some (JStr kind).

(** The filter that [fromCRD] stores for an owner reference. *)
Definition ownerFilter (ownerReference : JsVal) : JsVal :=
  JObj [("metadata", JObj [("ownerReferences", JArr [ownerReference])])].

(** ** [OperatorInstance.render] and [renderCSVInfo]

    What [render] returns is a tree of React elements: an element has a
    type with its props, and children. The child that an expression
    [{x && ...}] or [{x?.y}] gives for an undefined [x] is [nothing]. The
    components that the file imports are element types, with the props that
    [render] passes them; the three handlers that it passes are named. *)

Inductive Handler : Type :=
  | this_openModal
  | this_closeModal
  | this_handleDeleteClick.

(** An entry of [csv.spec.icon]. *)
Record Icon : Type := {
  mediatype : string;
  base64data : string;
}.

(** The type of an element, with its props other than [children]. *)
Inductive ElementType : Type :=
  | section_ (className : string)
  | main_
  | div_ (className : option string)
  | h5_
  | p_ (className : string)
  | button_ (className : string) (onClick : Handler)
  | Fragment
  | LoadingWrapper (loaded : bool)
  | ErrorSelector (error : JsError) (action resource namespace : string)
  | ApplicationStatus (deployRefs statefulsetRefs daemonsetRefs : list ResourceRef.t)
  | ConfirmDialog (onConfirm : Handler) (modalIsOpen loading : bool) (closeModal : Handler)
  | AccessURLTable (serviceRefs ingressRefs : list ResourceRef.t)
  | AppNotes (title notes : string)
  | ResourceTable (resourceRefs : list ResourceRef.t) (title : string)
  | AppValues (values : string)
  | CardGrid (className : string)
  | Card
  | CardIcon (icon : string)
  | CardContent
  | CardFooter.

Inductive Element : Type :=
  | el (type : ElementType) (children : list Element)
  | text (s : string)
  | nothing.

(** The values that [render] reads and that the records of the props do
    not carry, and the two imports that it uses: [resource.status] and
    [resource.spec], [csv.spec.icon] and [csv.spec.version],
    [yaml.safeDump], which throws on what it cannot dump, and the URL of
    [placeholder.png]. *)
Class ViewData : Type := {
  resource_status : IResource.t → JsVal;
  resource_spec : IResource.t → JsVal;
  csv_spec_icon : IClusterServiceVersion.t → list Icon;
  csv_spec_version : IClusterServiceVersion.t → string;
  yaml_safeDump : JsVal → Exc string;
  placeholder : string;
}.

Module View.
Import OperatorInstance IPartialAppViewState.

Section Render.
Context `{ViewData}.
(** [this.props]. *)
Variable props : IOperatorInstanceProps.
(** [this.state]. *)
Variable view_state : IOperatorInstanceState.

(** [{x && e}] and [{x?.y}] for an [x] that is an object or undefined. *)
Definition when {A} (x : option A) (e : A → Element) : Element :=
  match x with
  | Some a => e a
  | None => nothing
  end.

Definition renderCSVInfo (csv : IClusterServiceVersion.t) : Element :=
  let instanceName := instanceName props in
  let crd := crd view_state in
  let icon :=
    match csv_spec_icon csv with
    | first :: _ => "data:" ++ mediatype first ++ ";base64," ++ base64data first
    | [] => placeholder
    end in
  el (CardGrid "ChartInfo")
    [el Card
       [el (CardIcon icon) [];
        el CardContent
          [el h5_ [text instanceName];
           el (p_ "margin-b-reset")
             [when crd (λ crd, text (IClusterServiceVersionCRD.description crd))]];
        el CardFooter
          [el (div_ None)
             [el (div_ None) [text "Cluster Service Version: v"; text (csv_spec_version csv)];
              el (div_ None)
                [text "Kind: ";
                 when crd (λ crd, text (IClusterServiceVersionCRD.kind crd))]]]]].

(** The fragment under the second [{resources && ...}]; its two calls of
    [yaml.safeDump] are made in the order of the children. *)
Definition resourceTables (resource : IResource.t) (resources : IPartialAppViewState.t)
    : Exc Element :=
  exc_bind (yaml_safeDump (resource_status resource)) (λ notes,
  exc_bind (yaml_safeDump (resource_spec resource)) (λ values,
    Ok (el Fragment
          [el (AccessURLTable (serviceRefs resources) (ingressRefs resources)) [];
           el (AppNotes "Status" notes) [];
           el (ResourceTable (secretRefs resources) "Secrets") [];
           el (ResourceTable (deployRefs resources) "Deployments") [];
           el (ResourceTable (statefulSetRefs resources) "StatefulSets") [];
           el (ResourceTable (daemonSetRefs resources) "DaemonSets") [];
           el (ResourceTable (serviceRefs resources) "Services") [];
           el (AppValues values) []]))).

Definition render : Exc Element :=
  let resources := resources view_state in
  exc_bind
    (match resource props with
     | Some resource =>
         exc_bind
           (match resources with
            | Some resources => resourceTables (deref resource) resources
            | None => Ok nothing
            end)
           (λ tables,
              Ok (el (div_ (Some "row collapse-b-tablet"))
                    [el (div_ (Some "col-3"))
                       [when (csv props) (λ csv, renderCSVInfo (deref csv))];
                     el (div_ (Some "col-9"))
                       [el (div_ (Some "row padding-t-bigger"))
                          [el (div_ (Some "col-4"))
                             [when resources (λ resources,
                                el (ApplicationStatus (deployRefs resources)
                                      (statefulSetRefs resources)
                                      (daemonSetRefs resources)) [])];
                           el (div_ (Some "col-8 text-r"))
                             [el (button_ "button button-danger" this_openModal)
                                [text "Delete"];
                              el (ConfirmDialog this_handleDeleteClick
                                    (modalIsOpen view_state) (isFetching props)
                                    this_closeModal) []]];
                        tables]]))
     | None => Ok nothing
     end)
    (λ view,
       Ok (el (section_ "AppView padding-b-big")
             [el main_
                [el (LoadingWrapper (negb (isFetching props)))
                   [when (error props) (λ error,
                      el (ErrorSelector error "get"
                            ("Operator intance " ++ instanceName props)
                            (namespace props)) []);
                    view]]])).

End Render.

(** The types of the elements of a tree, in document order. *)
Fixpoint types (e : Element) : list ElementType :=
  match e with
  | el type children =>
      type :: (fix each (l : list Element) : list ElementType :=
                 match l with
                 | [] => []
                 | child :: rest => (types child ++ each rest)%list
                 end) children
  | text _ | nothing => []
  end.

(** The lists of references that a tree hands to its components. *)
Definition refs_passed (e : Element) : list (list ResourceRef.t) :=
  mjoin ((λ type,
            match type with
            | ApplicationStatus d s a => [d; s; a]
            | AccessURLTable s i => [s; i]
            | ResourceTable refs _ => [refs]
            | _ => []
            end) <$> types e).

(** The resource tables of a tree, by title. *)
Definition tables (e : Element) : list (string * list ResourceRef.t) :=
  omap (λ type,
          match type with
          | ResourceTable refs title => Some (title, refs)
          | _ => None
          end) (types e).

End View.

(** ** Further scenarios on the sample cluster *)
Module Scenario.

(** The instance has arrived, the CSV has not. *)
Definition withoutCSV (ns : string) (addr : nat) : OperatorInstance.IOperatorInstanceProps :=
  {| OperatorInstance.isFetching := false;
     OperatorInstance.namespace := ns;
     OperatorInstance.csvName := "foo-operator.v1";
     OperatorInstance.crdName := "foos.example.com";
     OperatorInstance.instanceName := "foo";
     OperatorInstance.deleteResource := λ _ _ _, Resolved true;
     OperatorInstance.error := None;
     OperatorInstance.resource := Some (mkRef addr Sample.foo);
     OperatorInstance.csv := None |}.

(** The CSV has arrived, the instance has not. *)
Definition withoutResource (ns : string) : OperatorInstance.IOperatorInstanceProps :=
  {| OperatorInstance.isFetching := true;
     OperatorInstance.namespace := ns;
     OperatorInstance.csvName := "foo-operator.v1";
     OperatorInstance.crdName := "foos.example.com";
     OperatorInstance.instanceName := "foo";
     OperatorInstance.deleteResource := λ _ _ _, Resolved true;
     OperatorInstance.error := None;
     OperatorInstance.resource := None;
     OperatorInstance.csv := Some (mkRef 2 Sample.csv) |}.

(** The deletion is refused by the cluster. *)
Definition forbidden : JsError := Error "Forbidden".

Definition refused (ns : string) : OperatorInstance.IOperatorInstanceProps :=
  {| OperatorInstance.isFetching := false;
     OperatorInstance.namespace := ns;
     OperatorInstance.csvName := "foo-operator.v1";
     OperatorInstance.crdName := "foos.example.com";
     OperatorInstance.instanceName := "foo";
     OperatorInstance.deleteResource := λ _ _ _, Rejected forbidden;
     OperatorInstance.error := None;
     OperatorInstance.resource := Some (mkRef 1 Sample.foo);
     OperatorInstance.csv := Some (mkRef 2 Sample.csv) |}.

(** The instance [foo] reports a phase; the CSV has one icon. A value that
    is undefined cannot be dumped. *)
Definition view : ViewData :=
  {| resource_status := λ _, JObj [("phase", JStr "Running")];
     resource_spec := λ _, JObj [("size", JNum 3)];
     csv_spec_icon := λ _, [{| mediatype := "image/png"; base64data := "iVBORw0KGgo=" |}];
     csv_spec_version := λ _, "1.0.0";
     yaml_safeDump := λ v,
       match v with
       | JUndefined => Throw (Error "unacceptable kind of an object to dump [object Undefined]")
       | JObj [(key, JStr s)] => Ok (key ++ ": " ++ s)
       | _ => Ok "size: 3"
       end;
     placeholder := "/static/media/placeholder.png" |}.

(** The same instance without a status. *)
Definition viewWithoutStatus : ViewData :=
  {| resource_status := λ _, JUndefined;
     resource_spec := resource_spec (ViewData := view);
     csv_spec_icon := λ _, [];
     csv_spec_version := csv_spec_version (ViewData := view);
     yaml_safeDump := yaml_safeDump (ViewData := view);
     placeholder := placeholder (ViewData := view) |}.

(** The modal is open on an instance whose CSV has not arrived: the state
    has no crd. *)
Definition confirming : OperatorInstance.IOperatorInstanceState :=
  {| OperatorInstance.modalIsOpen := true;
     OperatorInstance.crd := None;
     OperatorInstance.resources := None |}.

(** The state once the references of [foo] have been set. *)
Definition withRefs : OperatorInstance.IOperatorInstanceState :=
  {| OperatorInstance.modalIsOpen := false;
     OperatorInstance.crd := Some Sample.fooCRD;
     OperatorInstance.resources := Some Sample.refs |}.

End Scenario.

(** * Properties *)

(** ** The constructor of [ResourceRef] and [fromCRD] *)

Lemma truthy_string_spec (o : option string) :
  truthy_string o = false ↔ absent_or_empty o.
Proof.
  unfold absent_or_empty. destruct o as [s|]; simpl.
  - rewrite negb_false_iff, String.eqb_eq. split.
    + intros ->. by right.
    + intros [?|[= ->]]; done.
  - split; [by left | done].
Qed.

Lemma truthy_string_Some (o : option string) :
  truthy_string o = true → ∃ s, o = Some s ∧ s ≠ "".
Proof.
  destruct o as [s|]; simpl; [|done].
  rewrite negb_true_iff, String.eqb_neq. eauto.
Qed.

Lemma constructor_Ok (r : IResource.t) (d : option string) (f : option JsVal) (ns : string) :
  or_string (IResource.namespace (IResource.metadata r)) d = Some ns →
  ns ≠ "" →
  ResourceRef.constructor r d f =
    Ok {| ResourceRef.apiVersion := IResource.apiVersion r;
          ResourceRef.kind := IResource.kind r;
          ResourceRef.name := IResource.name (IResource.metadata r);
          ResourceRef.namespace := ns;
          ResourceRef.filter := default JUndefined f |}.
Proof.
  intros Hns Hne. unfold ResourceRef.constructor. rewrite Hns. simpl.
  apply String.eqb_neq in Hne. by rewrite Hne.
Qed.

Section FromCRD.
Context `{KubeAPI}.

(** C1. For a non-empty namespace [ns], [fromCRD r ns o] returns the
    reference whose API version is [Kube.resourceAPIVersion(r.kind)], whose
    kind and name are those of [r], whose namespace is [ns] and whose
    filter is [{ metadata: { ownerReferences: [o] } }]. *)
Theorem fromCRD_returns (r : IClusterServiceVersionCRDResource.t)
    (ns : string) (o : JsVal) :
  ns ≠ "" →
  ResourceRef.fromCRD r ns o =
    Ok {| ResourceRef.apiVersion :=
            Kube_resourceAPIVersion (IClusterServiceVersionCRDResource.kind r);
          ResourceRef.kind := IClusterServiceVersionCRDResource.kind r;
          ResourceRef.name := IClusterServiceVersionCRDResource.name r;
          ResourceRef.namespace := ns;
          ResourceRef.filter :=
            JObj [("metadata", JObj [("ownerReferences", JArr [o])])] |}.
Proof.
  intros Hne. unfold ResourceRef.fromCRD.
  by rewrite (constructor_Ok _ _ _ ns).
Qed.

(** With an empty namespace [fromCRD] throws. *)
Lemma fromCRD_empty_namespace (r : IClusterServiceVersionCRDResource.t) (o : JsVal) :
  ResourceRef.fromCRD r "" o =
    Throw (Error ("Namespace missing for resource "
                  ++ IClusterServiceVersionCRDResource.name r
                  ++ ", define a default namespace")).
Proof. reflexivity. Qed.

End FromCRD.

Lemma fromCRD_returns_witness :
  "team-a" ≠ "" ∧
  ResourceRef.fromCRD (H := Sample.kube) (Sample.owned "Deployment" "web") "team-a"
    (OperatorInstance.ownerRefOf Sample.foo) =
    Ok {| ResourceRef.apiVersion := "apps/v1";
          ResourceRef.kind := "Deployment";
          ResourceRef.name := "web";
          ResourceRef.namespace := "team-a";
          ResourceRef.filter :=
            JObj [("metadata",
                   JObj [("ownerReferences",
                          JArr [JObj [("name", JStr "foo"); ("kind", JStr "Foo")]])])] |}.
Proof.
  split; [done|].
  apply (fromCRD_returns (H := Sample.kube) (Sample.owned "Deployment" "web") "team-a"
           (OperatorInstance.ownerRefOf Sample.foo)).
  done.
Defined.

(** C3. The constructor throws exactly when [r.metadata.namespace] and the
    default namespace are both absent or empty. When it returns, the
    namespace of the reference is [r.metadata.namespace] if that is
    non-empty and the default otherwise, and it is not empty. *)
Theorem constructor_namespace (r : IResource.t) (d : option string) (f : option JsVal) :
  ((∃ e, ResourceRef.constructor r d f = Throw e) ↔
     absent_or_empty (IResource.namespace (IResource.metadata r)) ∧ absent_or_empty d)
  ∧ (∀ ref, ResourceRef.constructor r d f = Ok ref →
       Some (ResourceRef.namespace ref) =
         (if decide (absent_or_empty (IResource.namespace (IResource.metadata r)))
          then d else IResource.namespace (IResource.metadata r))
       ∧ ResourceRef.namespace ref ≠ "").
Proof.
  set (n := IResource.namespace (IResource.metadata r)).
  unfold ResourceRef.constructor. fold n.
  destruct (truthy_string (or_string n d)) eqn:Hor; simpl.
  - apply truthy_string_Some in Hor as (ns & Hor & Hne).
    assert (¬ (absent_or_empty n ∧ absent_or_empty d)) as Hboth.
    { intros [Hn Hd]. apply truthy_string_spec in Hn, Hd.
      unfold or_string in Hor. rewrite Hn in Hor. subst d. simpl in Hd.
      apply negb_false_iff, String.eqb_eq in Hd. done. }
    split.
    + split; [intros [e [=]] | done].
    + intros ref [= <-]. simpl. rewrite Hor. simpl. split; [|done].
      unfold or_string in Hor. case_decide as Hn.
      * apply truthy_string_spec in Hn. by rewrite Hn in Hor.
      * destruct (truthy_string n) eqn:Ht; [done|].
        by apply truthy_string_spec in Ht.
  - apply truthy_string_spec in Hor. split.
    + split; [intros _ | eauto].
      unfold or_string in Hor. destruct (truthy_string n) eqn:Ht.
      * apply truthy_string_spec in Hor. congruence.
      * apply truthy_string_spec in Ht. done.
    + intros ref [=].
Qed.


(** The constructor on the sample instance: its own namespace wins over the
    default; without either, the constructor throws. *)
Example constructor_own_namespace :
  ResourceRef.namespace <$>
    (match ResourceRef.constructor Sample.foo (Some "default") None with
     | Ok ref => Some ref
     | Throw _ => None
     end) = Some "team-a".
Proof. reflexivity. Qed.

Example constructor_throws :
  ResourceRef.constructor
    {| IResource.apiVersion := "v1"; IResource.kind := "Secret";
       IResource.metadata := {| IResource.name := "s"; IResource.namespace := Some "" |} |}
    None None =
  Throw (Error "Namespace missing for resource s, define a default namespace").
Proof. reflexivity. Qed.

(** ** Objects as association lists *)

Lemma obj_get_set_eq (key : string) (v : JsVal) (o : JsObject) :
  obj_get key (obj_set key v o) = Some v.
Proof.
  induction o as [|[k w] o IH]; simpl.
  - by rewrite String.eqb_refl.
  - destruct (String.eqb k key) eqn:E; simpl; rewrite E; done.
Qed.

Lemma obj_get_set_ne (key key' : string) (v : JsVal) (o : JsObject) :
  key' ≠ key → obj_get key' (obj_set key v o) = obj_get key' o.
Proof.
  intros Hne. induction o as [|[k w] o IH]; simpl.
  - apply not_eq_sym, String.eqb_neq in Hne. by rewrite Hne.
  - destruct (String.eqb k key) eqn:E; simpl.
    + apply String.eqb_eq in E as ->.
      apply not_eq_sym, String.eqb_neq in Hne. by rewrite Hne.
    + by rewrite IH.
Qed.

Lemma obj_set_keys (key : string) (v : JsVal) (o : JsObject) :
  is_Some (obj_get key o) → (obj_set key v o).*1 = o.*1.
Proof.
  induction o as [|[k w] o IH]; simpl.
  - by intros [? [=]].
  - destruct (String.eqb k key) eqn:E; simpl; [done|].
    intros Hs. f_equal. by apply IH.
Qed.

Lemma obj_set_same (key : string) (v : JsVal) (o : JsObject) :
  obj_get key o = Some v → obj_set key v o = o.
Proof.
  induction o as [|[k w] o IH]; simpl; [done|].
  destruct (String.eqb k key) eqn:E.
  - by intros [= ->].
  - intros Hget. by rewrite IH.
Qed.

(** ** lodash *)

(** [_.matches(undefined)] accepts every value. *)
Lemma matches_undefined (object : JsVal) : lodash.matches JUndefined object = true.
Proof. by destruct object. Qed.

Lemma filter_all {A} (p : A → bool) (l : list A) :
  (∀ x, p x = true) → List.filter p l = l.
Proof.
  intros Hp. induction l as [|x l IH]; simpl; [done|].
  by rewrite Hp, IH.
Qed.

(** The filter that [fromCRD] builds accepts the objects that list the owner
    among their owner references, whatever else they list. *)
Example matches_owner_reference :
  lodash.matches
    (JObj [("metadata",
            JObj [("ownerReferences", JArr [OperatorInstance.ownerRefOf Sample.foo])])])
    <$> Sample.deployments
  = [true; false; false].
Proof. reflexivity. Qed.

(** An array of the source matches by elements, each against an element of
    its own. *)
Example matches_array_elements :
  lodash.matches (JObj [("a", JArr [JNum 1; JNum 1])]) (JObj [("a", JArr [JNum 1; JNum 2])])
    = false
  ∧ lodash.matches (JObj [("a", JArr [JNum 2; JNum 1])])
      (JObj [("a", JArr [JNum 1; JNum 2; JNum 3])]) = true.
Proof. split; reflexivity. Qed.

(** ** The URLs and the request of a reference *)

Section Requests.
Context `{KubeAPI}.

(** C4. [getResourceURL] and [watchResourceURL] apply [Kube.getResourceURL]
    and [Kube.watchResourceURL] to the same four arguments: the API version,
    the plural of the kind, the namespace and the name of the reference. Two
    references with these coordinates in common have both URLs in common. *)
Theorem urls_of_coordinates (this : ResourceRef.t) :
  ResourceRef.getResourceURL this =
    Kube_getResourceURL (ResourceRef.apiVersion this)
      (Kube_resourcePlural (ResourceRef.kind this))
      (ResourceRef.namespace this) (ResourceRef.name this)
  ∧ ResourceRef.watchResourceURL this =
      Kube_watchResourceURL (ResourceRef.apiVersion this)
        (Kube_resourcePlural (ResourceRef.kind this))
        (ResourceRef.namespace this) (ResourceRef.name this)
  ∧ ∀ other : ResourceRef.t,
      coordinates other = coordinates this →
      ResourceRef.getResourceURL other = ResourceRef.getResourceURL this
      ∧ ResourceRef.watchResourceURL other = ResourceRef.watchResourceURL this.
Proof.
  repeat split; try reflexivity;
    unfold ResourceRef.getResourceURL, ResourceRef.watchResourceURL;
    unfold coordinates in *; congruence.
Qed.

Lemma getResource_filtered_truthy (this : ResourceRef.t) (resource : JsObject) :
  truthy (default JUndefined (obj_get "items" resource)) = true →
  ResourceRef.getResource_filtered this resource =
    obj_set "items"
      (JArr (List.filter (lodash.matches (ResourceRef.filter this))
               (lodash.collection_values (default JUndefined (obj_get "items" resource)))))
      resource.
Proof. intros Ht. unfold ResourceRef.getResource_filtered. by rewrite Ht. Qed.

(** C5. [getResource] makes the request
    [Kube.getResource(apiVersion, Kube.resourcePlural(kind), namespace, name)]
    and fails when the request fails. When the fetched object has a truthy
    [items], the object is returned with [items] replaced by the array of
    those of its elements that [_.matches(filter)] accepts, in their order,
    every other property being as fetched; otherwise the fetched object is
    returned as it is. *)
Theorem getResource_filters_items (this : ResourceRef.t) :
  let request :=
    Kube_getResource (ResourceRef.apiVersion this)
      (Kube_resourcePlural (ResourceRef.kind this))
      (ResourceRef.namespace this) (ResourceRef.name this) in
  (∀ e, request = Rejected e → ResourceRef.getResource this = Rejected e)
  ∧ (∀ resource, request = Resolved resource →
       let items := default JUndefined (obj_get "items" resource) in
       if truthy items then
         ∃ result,
           ResourceRef.getResource this = Resolved result
           ∧ obj_get "items" result =
               Some (JArr (List.filter (lodash.matches (ResourceRef.filter this))
                             (lodash.collection_values items)))
           ∧ (∀ key, key ≠ "items" → obj_get key result = obj_get key resource)
           ∧ result.*1 = resource.*1
       else ResourceRef.getResource this = Resolved resource)
  ∧ (∀ resource elems, request = Resolved resource →
       obj_get "items" resource = Some (JArr elems) →
       ∃ result kept,
         ResourceRef.getResource this = Resolved result
         ∧ obj_get "items" result = Some (JArr kept)
         ∧ kept `sublist_of` elems
         ∧ ∀ x, x ∈ kept ↔ x ∈ elems ∧ lodash.matches (ResourceRef.filter this) x = true).
Proof.
  intros request. subst request. unfold ResourceRef.getResource.
  split; [by intros e ->|]. split.
  - intros resource Hreq. rewrite Hreq. cbv zeta. simpl.
    destruct (truthy (default JUndefined (obj_get "items" resource))) eqn:Ht.
    + eexists. split; [reflexivity|].
      rewrite getResource_filtered_truthy by done.
      split; [apply obj_get_set_eq|]. split.
      * intros key Hkey. by apply obj_get_set_ne.
      * apply obj_set_keys.
        destruct (obj_get "items" resource); [eauto | done].
    + unfold ResourceRef.getResource_filtered. by rewrite Ht.
  - intros resource elems Hreq Hitems. rewrite Hreq. simpl.
    eexists _, (List.filter _ elems). split; [reflexivity|].
    rewrite getResource_filtered_truthy by (by rewrite Hitems).
    rewrite Hitems. simpl. split; [apply obj_get_set_eq|]. split.
    + clear Hitems. induction elems as [|x elems IH]; simpl; [constructor|].
      destruct (lodash.matches _ x); by constructor.
    + intros x. rewrite !list_elem_of_In, filter_In. done.
Qed.

(** C10. A reference constructed without a filter has the filter
    [undefined], which [_.matches] turns into a predicate that accepts every
    value: [getResource] returns a fetched list, that is an object whose
    [items] is an array, as it was fetched. *)
Theorem getResource_without_filter (r : IResource.t) (d : option string)
    (this : ResourceRef.t) :
  ResourceRef.constructor r d None = Ok this →
  ResourceRef.filter this = JUndefined
  ∧ (∀ x, lodash.matches (ResourceRef.filter this) x = true)
  ∧ ∀ resource elems,
      Kube_getResource (ResourceRef.apiVersion this)
        (Kube_resourcePlural (ResourceRef.kind this))
        (ResourceRef.namespace this) (ResourceRef.name this) = Resolved resource →
      obj_get "items" resource = Some (JArr elems) →
      ResourceRef.getResource this = Resolved resource.
Proof.
  intros Hnew.
  assert (ResourceRef.filter this = JUndefined) as Hf.
  { unfold ResourceRef.constructor in Hnew.
    destruct (negb _); [done|]. by injection Hnew as <-. }
  split; [done|]. split.
  - intros x. rewrite Hf. apply matches_undefined.
  - intros resource elems Hreq Hitems. unfold ResourceRef.getResource.
    rewrite Hreq. simpl. f_equal.
    rewrite getResource_filtered_truthy by (by rewrite Hitems).
    rewrite Hitems, Hf. simpl.
    rewrite filter_all by apply matches_undefined.
    by apply obj_set_same.
Qed.

End Requests.

Lemma getResource_filters_items_witness :
  ∃ this,
    ResourceRef.fromCRD (H := Sample.kube) (Sample.owned "Deployment" "") "team-a"
      (OperatorInstance.ownerRefOf Sample.foo) = Ok this
    ∧ ∃ result,
        ResourceRef.getResource (H := Sample.kube) this = Resolved result
        ∧ obj_get "items" result =
            Some (JArr [Sample.deployment "web" (Some (Sample.ownedBy "Foo" "foo"))]).
Proof.
  eexists. split; [reflexivity|].
  destruct (getResource_filters_items (H := Sample.kube)
              {| ResourceRef.apiVersion := "apps/v1"; ResourceRef.kind := "Deployment";
                 ResourceRef.name := ""; ResourceRef.namespace := "team-a";
                 ResourceRef.filter :=
                   JObj [("metadata",
                          JObj [("ownerReferences",
                                 JArr [OperatorInstance.ownerRefOf Sample.foo])])] |})
    as (_ & Hfetched & _).
  destruct (Hfetched Sample.deploymentList eq_refl) as (result & Hget & Hitems & _).
  exists result. split; [exact Hget | exact Hitems].
Defined.

Lemma getResource_without_filter_witness :
  ∃ this,
    ResourceRef.constructor Sample.foo None None = Ok this
    ∧ ResourceRef.getResource (H := Sample.kube) this = Resolved Sample.deploymentList.
Proof.
  eexists. split; [reflexivity|].
  eapply (getResource_without_filter (H := Sample.kube) Sample.foo None);
    reflexivity.
Defined.

(** ** Strings *)

Lemma split_nonempty (sep : ascii) (s : string) : split sep s ≠ [].
Proof.
  destruct s as [|c s]; simpl; [done|].
  destruct (Ascii.eqb c sep); [done|]. by destruct (split sep s).
Qed.

(** [s.split(sep)[0]] is the part of [s] before the first [sep]. *)
Lemma split_head (sep : ascii) (s : string) :
  hd "" (split sep s) = before_first sep s.
Proof.
  induction s as [|c s IH]; simpl; [done|].
  destruct (Ascii.eqb c sep); [done|].
  destruct (split sep s) eqn:E; simpl in *.
  - by apply split_nonempty in E.
  - by rewrite IH.
Qed.

(** [before_first sep s] is a prefix of [s] without [sep]; it is [s], or it
    is followed by [sep] in [s]. *)
Lemma before_first_spec (sep : ascii) (s : string) :
  (∀ c, c ∈ String.list_ascii_of_string (before_first sep s) → c ≠ sep)
  ∧ (s = before_first sep s
     ∨ ∃ rest, s = before_first sep s ++ String sep rest).
Proof.
  induction s as [|c s [IHno IHsplit]]; simpl.
  - split; [by intros c ?%elem_of_nil | by left].
  - destruct (Ascii.eqb_spec c sep) as [->|Hne]; simpl.
    + split; [by intros c ?%elem_of_nil | right; by exists s].
    + split.
      * intros c' [->| Hin]%elem_of_cons; [done | by apply IHno].
      * destruct IHsplit as [Heq | [rest Heq]].
        -- left. by rewrite <- Heq.
        -- right. exists rest. by rewrite Heq at 1.
Qed.

(** ** The operator-instance component *)

(** Unfolds the monad of the component down to pairs of a result and a
    world. *)
Ltac eff_unfold :=
  unfold OperatorInstance.run, OperatorInstance.openModal, OperatorInstance.closeModal,
    OperatorInstance.setState, OperatorInstance.emit, OperatorInstance.lift,
    OperatorInstance.this_state, mbind, mret, OperatorInstance.Eff_bind,
    OperatorInstance.Eff_ret in *;
  simpl in *.

Section Component.
Context `{KubeAPI}.
Variable props : OperatorInstance.IOperatorInstanceProps.

Import OperatorInstance.

(** One step of the [forEach]: the reference that [fromCRD] returns is
    added at the end of the bucket of its kind, and of no other. *)
Lemma collectRef_Ok (ownerRef : JsVal) (acc acc' : IPartialAppViewState.t)
    (r : IClusterServiceVersionCRDResource.t) :
  collectRef props ownerRef acc r = Ok acc' →
  ∃ ref,
    ResourceRef.fromCRD r (namespace props) ownerRef = Ok ref
    ∧ ∀ b, bucket b acc' =
           (bucket b acc
            ++ (if decide (bucketOf (IClusterServiceVersionCRDResource.kind r) = b)
                then [ref] else []))%list.
Proof.
  unfold collectRef, bucketOf.
  destruct (ResourceRef.fromCRD r (namespace props) ownerRef) as [ref|e] eqn:Href;
    simpl.
  - intros Hacc. exists ref. split; [done|].
    repeat
      match type of Hacc with
      | context [String.eqb ?k ?lit] =>
          destruct (String.eqb_spec k lit) as [?|?]
      end;
      injection Hacc as <-;
      repeat case_decide; try congruence;
      intros []; simpl; by rewrite ?app_nil_r.
  - intros Hacc. by repeat case_match.
Qed.

Lemma forEach_collectRef (ownerRef : JsVal) (l : list IClusterServiceVersionCRDResource.t) :
  ∀ acc result,
    forEach (collectRef props ownerRef) l acc = Ok result →
    (∀ b, Ok <$> bucket b result =
          ((Ok <$> bucket b acc)
           ++ ((λ r, ResourceRef.fromCRD r (namespace props) ownerRef)
               <$> filter (λ r, bucketOf (IClusterServiceVersionCRDResource.kind r) = b) l))%list)
    ∧ totalRefs result = totalRefs acc + length l.
Proof.
  induction l as [|r l IH]; intros acc result; simpl.
  - intros [= <-]. split; [|lia]. intros b. by rewrite app_nil_r.
  - destruct (collectRef props ownerRef acc r) as [acc'|e] eqn:Hstep; simpl; [|done].
    intros Hrest. apply IH in Hrest as [Hbuckets Htotal].
    apply collectRef_Ok in Hstep as (ref & Href & Hacc').
    split.
    + intros b. rewrite Hbuckets, Hacc', filter_cons.
      case_decide; simpl; rewrite ?app_nil_r; [|done].
      by rewrite fmap_app, <- app_assoc, Href.
    + rewrite Htotal. unfold totalRefs, allBuckets.
      pose proof (λ b, f_equal length (Hacc' b)) as Hlen.
      generalize (Hlen DeployBucket) (Hlen StatefulSetBucket) (Hlen DaemonSetBucket)
        (Hlen ServiceBucket) (Hlen IngressBucket) (Hlen SecretBucket)
        (Hlen OtherBucket).
      clear. destruct (bucketOf (IClusterServiceVersionCRDResource.kind r));
        simpl; rewrite ?length_app; simpl; lia.
Qed.

Lemma collectRefs_buckets (crd : IClusterServiceVersionCRD.t) (resource : IResource.t)
    (result : IPartialAppViewState.t) :
  collectRefs props crd resource = Ok result →
  (∀ b, Ok <$> bucket b result =
        (λ r, ResourceRef.fromCRD r (namespace props) (ownerRefOf resource))
        <$> filter (λ r, bucketOf (IClusterServiceVersionCRDResource.kind r) = b)
              (IClusterServiceVersionCRD.resources crd))
  ∧ totalRefs result = length (IClusterServiceVersionCRD.resources crd).
Proof.
  unfold collectRefs. intros Hloop.
  apply forEach_collectRef in Hloop as [Hbuckets Htotal]. split.
  - intros b. rewrite Hbuckets. by destruct b.
  - by rewrite Htotal.
Qed.

(** With a namespace that is not empty, the loop returns. *)
Lemma collectRefs_returns (crd : IClusterServiceVersionCRD.t) (resource : IResource.t) :
  namespace props ≠ "" → ∃ result, collectRefs props crd resource = Ok result.
Proof.
  intros Hns. unfold collectRefs.
  generalize emptyResult.
  induction (IClusterServiceVersionCRD.resources crd) as [|r l IH]; intros acc; simpl.
  - eauto.
  - unfold collectRef at 1, ResourceRef.fromCRD.
    rewrite (constructor_Ok _ _ _ (namespace props)) by done. simpl.
    repeat case_match; apply IH.
Qed.

End Component.

Section Lifecycle.
Context `{KubeAPI}.
Variable props : OperatorInstance.IOperatorInstanceProps.

Import OperatorInstance.

(** The outcome of an update that leaves the namespace as it was, with the
    two calls of [setState] in the order of the method. *)
Lemma componentDidUpdate_outcome (prevProps : IOperatorInstanceProps)
    (s : IOperatorInstanceState) :
  namespace prevProps = namespace props →
  run (componentDidUpdate props prevProps) s =
    if strict_neq_ref (csv props) (csv prevProps)
       || strict_neq_ref (resource props) (resource prevProps)
    then
      let lookup :=
        match csv props, resource props with
        | Some csv, Some resource =>
            Some (List.find (λ c, String.eqb (IClusterServiceVersionCRD.kind c)
                                    (IResource.kind (deref resource)))
                    (ownedCRDs (deref csv)))
        | _, _ => None
        end in
      let s1 := from_option (λ found, merge s (set_crd found)) s lookup in
      let calls1 := from_option (λ found, [call_setState (set_crd found)]) [] lookup in
      match crd s1, resource props with
      | Some c, Some resource =>
          match collectRefs props c (deref resource) with
          | Ok result =>
              (Ok tt,
               {| state := merge s1 (set_resources result);
                  calls := (calls1 ++ [call_setState (set_resources result)])%list |})
          | Throw e => (Throw e, {| state := s1; calls := calls1 |})
          end
      | _, _ => (Ok tt, {| state := s1; calls := calls1 |})
      end
    else (Ok tt, {| state := s; calls := [] |}).
Proof.
  intros Hsame. unfold run, componentDidUpdate, ownedCRDs.
  rewrite Hsame, String.eqb_refl. simpl.
  destruct (_ || _); [|reflexivity].
  eff_unfold.
  destruct (csv props) as [c|], (resource props) as [r|]; simpl;
    repeat case_match; simplify_eq/=; reflexivity.
Qed.

(** Membership in the short call lists of an update. *)
Ltac calls_cases :=
  repeat
    match goal with
    | H : _ ∈ [] |- _ => by apply elem_of_nil in H
    | H : _ ∈ _ :: _ |- _ =>
        apply elem_of_cons in H as [H|H];
        [unfold set_resources, set_crd in H; simplify_eq|]
    end.

(** C2. When [componentDidUpdate] rebuilds the resource references, the
    state holds a crd and the props a resource, and each bucket of the result
    holds, in the order of [crd.resources], the references
    [fromCRD(r, namespace, { name: resource.metadata.name, kind: resource.kind })]
    of the entries [r] whose kind the bucket is for; an entry belongs to one
    bucket ([bucketOf] is a function), and the buckets together have as many
    references as [crd.resources] has entries. *)
Theorem componentDidUpdate_buckets (prevProps : IOperatorInstanceProps)
    (s : IOperatorInstanceState) (result : IPartialAppViewState.t) :
  call_setState (set_resources result) ∈ calls_of_update props prevProps s →
  ∃ crd resource,
    OperatorInstance.crd (state_after_update props prevProps s) = Some crd
    ∧ OperatorInstance.resource props = Some resource
    ∧ OperatorInstance.resources (state_after_update props prevProps s) = Some result
    ∧ (∀ b, Ok <$> bucket b result =
            (λ r, ResourceRef.fromCRD r (namespace props)
                    (JObj [("name", JStr (IResource.name (IResource.metadata (deref resource))));
                           ("kind", JStr (IResource.kind (deref resource)))]))
            <$> filter (λ r, bucketOf (IClusterServiceVersionCRDResource.kind r) = b)
                  (IClusterServiceVersionCRD.resources crd))
    ∧ totalRefs result = length (IClusterServiceVersionCRD.resources crd).
Proof.
  unfold calls_of_update, state_after_update.
  destruct (String.eqb_spec (namespace prevProps) (namespace props)) as [Hsame|Hns].
  - rewrite componentDidUpdate_outcome by done.
    destruct (_ || _); simpl; [|by intros ?%elem_of_nil].
    destruct (csv props) as [c|], (resource props) as [r|]; simpl.
    all: first [ destruct (List.find _ _) as [found|] eqn:Hcrd
               | destruct (crd s) as [found|] eqn:Hcrd ]; simpl;
      try destruct (collectRefs _ _ _) as [res|e] eqn:Hcollect; simpl.
    all: intros Hcall; calls_cases; subst.
    all: apply collectRefs_buckets in Hcollect as [Hbuckets Htotal].
    all: exists found, r; by rewrite ?Hcrd.
  - unfold run, componentDidUpdate.
    apply String.eqb_neq in Hns. rewrite Hns. simpl.
    intros Hcall. calls_cases.
Qed.

(** The rebuild does happen: in an unchanged, non-empty namespace, after a
    change of the [csv] or [resource] prop with both present and an owned
    CRD of the kind of the resource, the references are set. *)
Lemma componentDidUpdate_rebuilds (prevProps : IOperatorInstanceProps)
    (s : IOperatorInstanceState) (csv : Ref IClusterServiceVersion.t)
    (resource : Ref IResource.t) (crd : IClusterServiceVersionCRD.t) :
  namespace prevProps = namespace props →
  namespace props ≠ "" →
  csv_or_resource_changed props prevProps →
  OperatorInstance.csv props = Some csv →
  OperatorInstance.resource props = Some resource →
  List.find (λ c, String.eqb (IClusterServiceVersionCRD.kind c)
                    (IResource.kind (deref resource))) (ownedCRDs (deref csv)) = Some crd →
  ∃ result,
    collectRefs props crd (deref resource) = Ok result
    ∧ run (componentDidUpdate props prevProps) s =
        (Ok tt,
         {| state := {| modalIsOpen := modalIsOpen s; crd := Some crd;
                        resources := Some result |};
            calls := [call_setState (set_crd (Some crd));
                      call_setState (set_resources result)] |}).
Proof.
  intros Hsame Hns Hchanged Hcsv Hres Hfind.
  destruct (collectRefs_returns props crd (deref resource) Hns) as [result Hresult].
  exists result. split; [done|].
  rewrite componentDidUpdate_outcome by done.
  destruct Hchanged as [-> | ->]; rewrite ?orb_true_r; simpl;
    rewrite Hcsv, Hres; simpl; unfold ownedCRDs in *; rewrite Hfind, Hresult; done.
Qed.

(** C7. An update in which the namespace prop has changed calls
    [getResource(namespace, csvName, crdName, instanceName)] and nothing
    else: the state is as before and [setState] is not called. Mounting
    makes the same single call. *)
Theorem namespace_change_refetches (prevProps : IOperatorInstanceProps) (w : World) :
  namespace prevProps ≠ namespace props →
  componentDidUpdate props prevProps w =
    (Ok tt,
     {| state := state w;
        calls := calls w ++ [call_getResource (namespace props) (csvName props)
                               (crdName props) (instanceName props)] |})
  ∧ componentDidMount props w =
      (Ok tt,
       {| state := state w;
          calls := calls w ++ [call_getResource (namespace props) (csvName props)
                                 (crdName props) (instanceName props)] |}).
Proof.
  intros Hns. split; [|reflexivity].
  unfold componentDidUpdate.
  by destruct (String.eqb_spec (namespace prevProps) (namespace props)).
Qed.

(** [List.find] returns the first element that passes the test. *)
Lemma find_first_of_kind (kind : string) (l : list IClusterServiceVersionCRD.t)
    (c : IClusterServiceVersionCRD.t) :
  List.find (λ c, String.eqb (IClusterServiceVersionCRD.kind c) kind) l = Some c
  ↔ first_of_kind kind l c.
Proof.
  unfold first_of_kind. revert c. induction l as [|x l IH]; intros c; simpl.
  - split; [done | by intros (i & ? & _)].
  - destruct (String.eqb_spec (IClusterServiceVersionCRD.kind x) kind) as [Hx|Hx].
    + split.
      * intros [= <-]. exists 0. split; [done|]. split; [done|]. lia.
      * intros ([|i] & Hi & Hc & Hbefore); simpl in Hi.
        -- by injection Hi as ->.
        -- exfalso. apply (Hbefore 0 x); [lia | done | done].
    + rewrite IH. split.
      * intros (i & Hi & Hc & Hbefore). exists (S i). split; [done|]. split; [done|].
        intros [|j] c' Hj Hc'; simpl in Hc'; [by injection Hc' as <-|].
        apply (Hbefore j); [lia | done].
      * intros ([|i] & Hi & Hc & Hbefore); simpl in Hi.
        -- injection Hi as ->. done.
        -- exists i. split; [done|]. split; [done|].
           intros j c' Hj Hc'. apply (Hbefore (S j)); [lia | done].
Qed.

(** C8, amended. In an update that leaves the namespace prop as it was, in
    which the [csv] or the [resource] prop has changed and both are present,
    [setState] is first called with the first owned CRD of the kind of the
    resource ([undefined] if there is none), which the state holds once the
    update has returned; no references are set when there is none, and
    references that are set are those collected from the CRD found. *)
Theorem crd_lookup_on_change (prevProps : IOperatorInstanceProps)
    (s : IOperatorInstanceState) (csv : Ref IClusterServiceVersion.t)
    (resource : Ref IResource.t) :
  namespace prevProps = namespace props →
  csv_or_resource_changed props prevProps →
  OperatorInstance.csv props = Some csv →
  OperatorInstance.resource props = Some resource →
  let found :=
    List.find (λ c, String.eqb (IClusterServiceVersionCRD.kind c)
                      (IResource.kind (deref resource))) (ownedCRDs (deref csv)) in
  (∀ c, found = Some c ↔ first_of_kind (IResource.kind (deref resource)) (ownedCRDs (deref csv)) c)
  ∧ head (calls_of_update props prevProps s) = Some (call_setState (set_crd found))
  ∧ ((run (componentDidUpdate props prevProps) s).1 = Ok tt →
       OperatorInstance.crd (state_after_update props prevProps s) = found)
  ∧ (found = None →
       (run (componentDidUpdate props prevProps) s).1 = Ok tt
       ∧ calls_of_update props prevProps s = [call_setState (set_crd None)]
       ∧ resources (state_after_update props prevProps s) = resources s)
  ∧ (∀ result,
       call_setState (set_resources result) ∈ calls_of_update props prevProps s →
       ∃ c, found = Some c ∧ collectRefs props c (deref resource) = Ok result).
Proof.
  intros Hsame Hchanged Hcsv Hres found.
  split; [intros c; apply find_first_of_kind|].
  unfold calls_of_update, state_after_update.
  rewrite componentDidUpdate_outcome by done.
  destruct Hchanged as [-> | ->]; rewrite ?orb_true_r; simpl.
  all: rewrite Hcsv, Hres; simpl; fold found.
  all: destruct found as [c|]; simpl;
    try destruct (collectRefs props c (deref resource)) as [res|e] eqn:Hcollect; simpl.
  all: repeat split; try done.
  all: intros result Hin; calls_cases; subst; eauto.
Qed.

(** ** The modal and the deletion *)

(** The run of [handleDeleteClick] on a component whose state holds a crd. *)
Lemma handleDeleteClick_outcome (w : World) (c : IClusterServiceVersionCRD.t) :
  crd (state w) = Some c →
  let crdName := before_first "." (IClusterServiceVersionCRD.name c) in
  let call := call_deleteResource (namespace props) crdName (resource props) in
  handleDeleteClick props w =
    match deleteResource props (namespace props) crdName (resource props) with
    | Rejected e => (Throw e, {| state := state w; calls := calls w ++ [call] |})
    | Resolved deleted =>
        (Ok tt,
         {| state := merge (state w) set_modalIsOpen_false;
            calls :=
              ((calls w ++ [call]) ++ [call_setState set_modalIsOpen_false])
              ++ (if deleted then [call_push ("/apps/ns/" ++ namespace props)] else []) |})
    end%list.
Proof.
  intros Hcrd. unfold handleDeleteClick, handleDeleteClick_call, handleDeleteClick_resume.
  eff_unfold. rewrite Hcrd, split_head.
  destruct (deleteResource props _ _ _) as [[]|e]; simpl; [done| |done].
  by rewrite app_nil_r.
Qed.

(** Without a crd in the state, [crd!.name] throws before anything is
    called. *)
Lemma handleDeleteClick_without_crd (w : World) :
  crd (state w) = None →
  handleDeleteClick props w =
    (Throw (TypeError "Cannot read property 'name' of undefined"), w).
Proof.
  intros Hcrd. unfold handleDeleteClick, handleDeleteClick_call.
  eff_unfold. by rewrite Hcrd.
Qed.

(** On a component whose state holds a crd, the deletion goes as it
    should: [handleDeleteClick] first calls [deleteResource] with the
    namespace, the part of the name of the crd before its first ['.'] and
    the resource, and makes no other call of it; it calls [push], with
    [/apps/ns/<namespace>], exactly when [deleteResource] resolves to
    [true]. *)
Theorem handleDeleteClick_deletes_then_pushes (s : IOperatorInstanceState)
    (c : IClusterServiceVersionCRD.t) :
  crd s = Some c →
  let crdName := before_first "." (IClusterServiceVersionCRD.name c) in
  let made := calls (run (handleDeleteClick props) s).2 in
  head made = Some (call_deleteResource (namespace props) crdName (resource props))
  ∧ (∀ ns name r, call_deleteResource ns name r ∈ made →
       ns = namespace props ∧ name = crdName ∧ r = resource props)
  ∧ (∀ location, call_push location ∈ made →
       location = "/apps/ns/" ++ namespace props)
  ∧ (call_push ("/apps/ns/" ++ namespace props) ∈ made ↔
       deleteResource props (namespace props) crdName (resource props) = Resolved true).
Proof.
  intros Hcrd crdName made. subst made. unfold run.
  rewrite (handleDeleteClick_outcome _ c) by done. fold crdName.
  destruct (deleteResource props _ _ _) as [[]|e]; simpl.
  all: repeat split; try done.
  all: try (intros; calls_cases; done).
  all: try (intros ?; apply elem_of_list_further ||
            (do 2 apply list_elem_of_further; apply list_elem_of_here)).
  all: intros; do 2 apply list_elem_of_further; apply list_elem_of_here.
Qed.

(** C9. [openModal] sets [modalIsOpen] to [true] and [closeModal] sets it to
    [false], and neither changes [crd] or [resources]. Once [deleteResource]
    has been called and has resolved, to [true] or to [false], the rest of
    [handleDeleteClick] leaves the modal closed, and [crd] and [resources]
    as they were. *)
Theorem modal_open_close (w : World) :
  (state (openModal w).2 =
     {| modalIsOpen := true; crd := crd (state w); resources := resources (state w) |})
  ∧ (state (closeModal w).2 =
       {| modalIsOpen := false; crd := crd (state w); resources := resources (state w) |})
  ∧ (∀ deleted,
       state (handleDeleteClick_resume props deleted w).2 =
         {| modalIsOpen := false; crd := crd (state w); resources := resources (state w) |})
  ∧ (∀ deleted w1,
       handleDeleteClick_call props w = (Ok (Resolved deleted), w1) →
       state (handleDeleteClick props w).2 =
         {| modalIsOpen := false; crd := crd (state w); resources := resources (state w) |}).
Proof.
  split; [done|]. split; [done|]. split.
  - by intros [].
  - intros deleted w1.
    unfold handleDeleteClick, handleDeleteClick_call, handleDeleteClick_resume.
    eff_unfold. destruct (crd (state w)) as [c|] eqn:Hcrd; simpl; [|done].
    intros [= -> <-]. destruct deleted; simpl; unfold merge; simpl; by rewrite Hcrd.
Qed.

End Lifecycle.

(** ** The properties on the sample cluster *)

Lemma constructor_namespace_witness :
  ∃ ref,
    ResourceRef.constructor Sample.foo (Some "default") None = Ok ref
    ∧ Some (ResourceRef.namespace ref) = Some "team-a"
    ∧ ResourceRef.namespace ref ≠ "".
Proof.
  eexists. split; [reflexivity|].
  destruct (constructor_namespace Sample.foo (Some "default") None) as [_ Hok].
  exact (Hok _ eq_refl).
Defined.

Lemma componentDidUpdate_buckets_witness :
  OperatorInstance.call_setState (OperatorInstance.set_resources Sample.refs)
    ∈ calls_of_update (H := Sample.kube) (Sample.loaded "team-a" true)
        (Sample.loading "team-a" true) OperatorInstance.initialState
  ∧ length (bucket DeployBucket Sample.refs) = 2
  ∧ length (bucket OtherBucket Sample.refs) = 1
  ∧ totalRefs Sample.refs = 3.
Proof.
  assert (OperatorInstance.call_setState (OperatorInstance.set_resources Sample.refs)
            ∈ calls_of_update (H := Sample.kube) (Sample.loaded "team-a" true)
                (Sample.loading "team-a" true) OperatorInstance.initialState) as Hcall.
  { vm_compute. apply list_elem_of_further, list_elem_of_here. }
  split; [exact Hcall|].
  destruct (componentDidUpdate_buckets (H := Sample.kube) _ _ _ _ Hcall)
    as (crd & resource & Hcrd & Hres & _ & _ & Htotal).
  split; [reflexivity|]. split; [reflexivity|].
  injection Hcrd as <-. exact Htotal.
Defined.

Lemma namespace_change_refetches_witness :
  "team-a" ≠ "team-b"
  ∧ OperatorInstance.run
      (OperatorInstance.componentDidUpdate (H := Sample.kube)
         (Sample.loaded "team-b" true) (Sample.loaded "team-a" true))
      Sample.withCRD =
    (Ok tt,
     {| OperatorInstance.state := Sample.withCRD;
        OperatorInstance.calls :=
          [OperatorInstance.call_getResource "team-b" "foo-operator.v1"
             "foos.example.com" "foo"] |}).
Proof.
  split; [done|].
  apply (namespace_change_refetches (H := Sample.kube) (Sample.loaded "team-b" true)
           (Sample.loaded "team-a" true)
           {| OperatorInstance.state := Sample.withCRD; OperatorInstance.calls := [] |}).
  done.
Defined.

Lemma crd_lookup_on_change_witness :
  csv_or_resource_changed (Sample.loaded "team-a" true) (Sample.loading "team-a" true)
  ∧ OperatorInstance.crd
      (state_after_update (H := Sample.kube) (Sample.loaded "team-a" true)
         (Sample.loading "team-a" true) OperatorInstance.initialState)
    = Some Sample.fooCRD.
Proof.
  assert (csv_or_resource_changed (Sample.loaded "team-a" true)
            (Sample.loading "team-a" true)) as Hchanged by (by left).
  split; [exact Hchanged|].
  destruct (crd_lookup_on_change (H := Sample.kube) (Sample.loaded "team-a" true)
              (Sample.loading "team-a" true) OperatorInstance.initialState
              (mkRef 2 Sample.csv) (mkRef 1 Sample.foo) eq_refl Hchanged eq_refl eq_refl)
    as (_ & _ & Hcrd & _).
  exact (Hcrd eq_refl).
Defined.

(** C8 as it is stated does not hold: when the namespace prop changes in the
    same update as the [csv] prop, the method returns before the lookup and
    the state keeps its crd. *)
Lemma crd_not_set_on_namespace_change :
  ¬ crd_set_on_every_change (H := Sample.kube).
Proof.
  intros Hall.
  specialize (Hall (Sample.loaded "team-b" true) (Sample.loading "team-a" true)
                OperatorInstance.initialState (mkRef 2 Sample.csv) (mkRef 1 Sample.foo)
                (or_introl eq_refl) eq_refl eq_refl).
  vm_compute in Hall. discriminate Hall.
Qed.

(** The call of [deleteResource] is not made in every state: as long as the
    state has no crd, [crd!.name] throws before it. *)
Lemma deleteResource_not_called_without_crd :
  ¬ deleteResource_called_on_every_confirm.
Proof.
  intros Hall.
  destruct (Hall (Sample.loaded "team-a" true) OperatorInstance.initialState)
    as [crdName Hcall].
  vm_compute in Hcall. by apply elem_of_nil in Hcall.
Qed.

Lemma handleDeleteClick_deletes_then_pushes_witness :
  OperatorInstance.crd Sample.withCRD = Some Sample.fooCRD
  ∧ head (OperatorInstance.calls
            (OperatorInstance.run
               (OperatorInstance.handleDeleteClick (Sample.loaded "team-a" true))
               Sample.withCRD).2)
    = Some (OperatorInstance.call_deleteResource "team-a" "foos" (Some (mkRef 1 Sample.foo)))
  ∧ OperatorInstance.call_push "/apps/ns/team-a"
      ∈ OperatorInstance.calls
          (OperatorInstance.run
             (OperatorInstance.handleDeleteClick (Sample.loaded "team-a" true))
             Sample.withCRD).2.
Proof.
  split; [reflexivity|].
  destruct (handleDeleteClick_deletes_then_pushes (Sample.loaded "team-a" true)
              Sample.withCRD Sample.fooCRD eq_refl) as (Hhead & _ & _ & Hpush).
  split; [exact Hhead|].
  apply Hpush. reflexivity.
Defined.

Lemma modal_open_close_witness :
  OperatorInstance.modalIsOpen Sample.withCRD = true
  ∧ OperatorInstance.state
      (OperatorInstance.run
         (OperatorInstance.handleDeleteClick (Sample.loaded "team-a" false))
         Sample.withCRD).2
    = {| OperatorInstance.modalIsOpen := false;
         OperatorInstance.crd := Some Sample.fooCRD;
         OperatorInstance.resources := None |}.
Proof.
  split; [reflexivity|].
  destruct (modal_open_close (Sample.loaded "team-a" false)
              {| OperatorInstance.state := Sample.withCRD; OperatorInstance.calls := [] |})
    as (_ & _ & _ & Hdelete).
  exact (Hdelete false _ eq_refl).
Defined.

(** * Further properties *)

(** ** [fromCRD] and the constructor *)

Section FromCRDFurther.
Context `{KubeAPI}.

(** X1. [fromCRD] throws exactly when the namespace is the empty string, and
    the error then names the resource of the descriptor. *)
Theorem fromCRD_throws_iff_empty (r : IClusterServiceVersionCRDResource.t)
    (ns : string) (o : JsVal) (e : JsError) :
  ResourceRef.fromCRD r ns o = Throw e
  ↔ ns = ""
    ∧ e = Error ("Namespace missing for resource "
                 ++ IClusterServiceVersionCRDResource.name r
                 ++ ", define a default namespace").
Proof.
  destruct (decide (ns = "")) as [->|Hne].
  - unfold ResourceRef.fromCRD, ResourceRef.constructor. simpl. split.
    + by intros [= <-].
    + by intros [_ ->].
  - unfold ResourceRef.fromCRD.
    rewrite (constructor_Ok _ _ _ ns) by done. split; [done | by intros [? _]].
Qed.

(** X5. The URLs of a reference that [fromCRD] returns are those of the
    kind and the name of the descriptor in the namespace: the owner
    reference has no part in them. *)
Theorem fromCRD_urls (r : IClusterServiceVersionCRDResource.t) (ns : string)
    (o : JsVal) (ref : ResourceRef.t) :
  ResourceRef.fromCRD r ns o = Ok ref →
  let kind := IClusterServiceVersionCRDResource.kind r in
  let name := IClusterServiceVersionCRDResource.name r in
  ResourceRef.getResourceURL ref =
    Kube_getResourceURL (Kube_resourceAPIVersion kind) (Kube_resourcePlural kind) ns name
  ∧ ResourceRef.watchResourceURL ref =
      Kube_watchResourceURL (Kube_resourceAPIVersion kind) (Kube_resourcePlural kind) ns name
  ∧ ∀ o' ref', ResourceRef.fromCRD r ns o' = Ok ref' →
      ResourceRef.getResourceURL ref' = ResourceRef.getResourceURL ref
      ∧ ResourceRef.watchResourceURL ref' = ResourceRef.watchResourceURL ref.
Proof.
  intros Href kind name.
  destruct (decide (ns = "")) as [->|Hne]; [done|].
  unfold ResourceRef.fromCRD in *.
  rewrite (constructor_Ok _ _ _ ns) in Href by done. injection Href as <-.
  split; [done|]. split; [done|].
  intros o' ref'. rewrite (constructor_Ok _ _ _ ns) by done. by intros [= <-].
Qed.

End FromCRDFurther.

(** X2. A resource with a namespace of its own that is not empty gets the
    same reference whatever the default namespace is, also when there is
    none. *)
Theorem constructor_own_namespace_wins (r : IResource.t) (d d' : option string)
    (f : option JsVal) :
  ¬ absent_or_empty (IResource.namespace (IResource.metadata r)) →
  ResourceRef.constructor r d f = ResourceRef.constructor r d' f
  ∧ ∃ ref, ResourceRef.constructor r d f = Ok ref
           ∧ Some (ResourceRef.namespace ref) = IResource.namespace (IResource.metadata r).
Proof.
  intros Hown.
  destruct (truthy_string (IResource.namespace (IResource.metadata r))) eqn:Ht.
  - assert (∀ x, or_string (IResource.namespace (IResource.metadata r)) x
                 = IResource.namespace (IResource.metadata r)) as Hor.
    { intros x. unfold or_string. by rewrite Ht. }
    apply truthy_string_Some in Ht as (ns & Hns & Hne).
    rewrite !(constructor_Ok _ _ _ ns) by (by rewrite ?Hor). split; [done|].
    eexists. split; [done|]. by rewrite Hns.
  - by apply truthy_string_spec in Ht.
Qed.

Lemma constructor_own_namespace_wins_witness :
  ¬ absent_or_empty (IResource.namespace (IResource.metadata Sample.foo))
  ∧ ResourceRef.constructor Sample.foo (Some "default") None
    = ResourceRef.constructor Sample.foo None None.
Proof.
  assert (¬ absent_or_empty (IResource.namespace (IResource.metadata Sample.foo)))
    as Hown by (by intros [[=]|[=]]).
  split; [exact Hown|].
  exact (proj1 (constructor_own_namespace_wins Sample.foo (Some "default") None None Hown)).
Defined.

Lemma fromCRD_urls_witness :
  ∃ ref,
    ResourceRef.fromCRD (H := Sample.kube) (Sample.owned "Deployment" "web") "team-a"
      JNull = Ok ref
    ∧ ResourceRef.getResourceURL (H := Sample.kube) ref
      = "api/kube/apis/apps/v1/namespaces/team-a/Deployments/web".
Proof.
  eexists. split; [reflexivity|].
  exact (proj1 (fromCRD_urls (H := Sample.kube) (Sample.owned "Deployment" "web")
                  "team-a" JNull _ eq_refl)).
Defined.

(** ** Filtering what was fetched *)

Lemma obj_set_twice (key : string) (v w : JsVal) (o : JsObject) :
  obj_set key v (obj_set key w o) = obj_set key v o.
Proof.
  induction o as [|[k x] o IH]; simpl.
  - by rewrite String.eqb_refl.
  - destruct (String.eqb k key) eqn:E; simpl; rewrite E; [done|]. by rewrite IH.
Qed.

Lemma filter_twice {A} (p : A → bool) (l : list A) :
  List.filter p (List.filter p l) = List.filter p l.
Proof.
  induction l as [|x l IH]; simpl; [done|].
  destruct (p x) eqn:E; simpl; rewrite ?E, IH; done.
Qed.

(** The name of an index is not the name of a property of a Kubernetes
    object: it starts with a digit. *)
Lemma index_key_digit (i : nat) :
  ∃ c rest, lodash.index_key i = String c rest
            ∧ (Ascii.nat_of_ascii c <? 58)%nat = true.
Proof.
  unfold lodash.index_key.
  destruct (Nat.to_uint i) as [|u|u|u|u|u|u|u|u|u|u]; simpl; eauto.
Qed.

Lemma obj_get_indexed_letter (c : ascii) (key : string) (i : nat) (l : list JsVal) :
  (Ascii.nat_of_ascii c <? 58)%nat = false →
  obj_get (String c key) (lodash.indexed i l) = None.
Proof.
  intros Hc. revert i. induction l as [|x l IH]; intros i; simpl; [done|].
  destruct (index_key_digit i) as (d & rest & -> & Hd). simpl.
  destruct (Ascii.eqb_spec d c) as [->|_]; [congruence|]. apply IH.
Qed.

Lemma arraySome_unseen_nil (p : JsVal → bool) (i : nat) (other : list JsVal) :
  is_Some (lodash.arraySome_unseen p [] i other) ↔ ∃ x, x ∈ other ∧ p x = true.
Proof.
  revert i. induction other as [|y other IH]; intros i; simpl.
  - split; [by intros [? [=]] | by intros (x & ?%elem_of_nil & _)].
  - destruct (p y) eqn:Hy; simpl.
    + split; [|eauto]. intros _. exists y. split; [apply list_elem_of_here | done].
    + rewrite IH. split.
      * intros (x & Hin & Hx). exists x. split; [by apply list_elem_of_further | done].
      * intros (x & [->|Hin]%elem_of_cons & Hx); [congruence | eauto].
Qed.

(** [_.matches({ name, kind })] accepts the objects with these two values. *)
Lemma baseIsEqual_name_kind (name kind : string) (x : JsVal) :
  lodash.baseIsEqual (JObj [("name", JStr name); ("kind", JStr kind)]) x = true
  ↔ ∃ owner, x = JObj owner
             ∧ obj_get "name" owner = Some (JStr name)
             ∧ obj_get "kind" owner = Some (JStr kind).
Proof.
  destruct x as [| | | | |elems|owner]; simpl;
    try (split; [done | by intros (? & [=] & _)]).
  unfold lodash.get_prop. simpl.
  destruct (obj_get "name" owner) as [a|] eqn:Hname;
    [|split; [done | by intros (? & [= <-] & ? & _); congruence]].
  destruct (obj_get "kind" owner) as [b|] eqn:Hkind;
    [|rewrite andb_false_r; split; [done | by intros (? & [= <-] & _ & ?); congruence]].
  rewrite andb_true_r, andb_true_iff. split.
  - intros [Ha Hb]. exists owner. split; [done|].
    destruct a, b; simpl in *; try done.
    apply String.eqb_eq in Ha, Hb. by subst.
  - intros (? & [= <-] & Ha & Hb). rewrite Hname in Ha. rewrite Hkind in Hb.
    injection Ha as ->. injection Hb as ->. simpl. by rewrite !String.eqb_refl.
Qed.

Lemma obj_get_app (key : string) (o1 o2 : JsObject) :
  obj_get key (o1 ++ o2)%list = from_option Some (obj_get key o2) (obj_get key o1).
Proof.
  induction o1 as [|[k v] o1 IH]; simpl; [done|].
  by destruct (String.eqb k key).
Qed.

(** Only an object has a property [metadata]. *)
Lemma get_prop_metadata (item : JsVal) :
  lodash.get_prop item "metadata" =
    match item with
    | JObj props => obj_get "metadata" props
    | _ => None
    end.
Proof.
  unfold lodash.get_prop.
  destruct item as [| | | |s|elems|props]; simpl; try done.
  all: by rewrite obj_get_app, obj_get_indexed_letter.
Qed.

Lemma baseIsEqual_one_of (o w : JsVal) :
  lodash.baseIsEqual (JArr [o]) w = true
  ↔ ∃ owners x, w = JArr owners ∧ x ∈ owners ∧ lodash.baseIsEqual o x = true.
Proof.
  destruct w as [| | | | |owners|props]; simpl;
    try (split; [done | by intros (? & ? & [=] & _)]).
  pose proof (arraySome_unseen_nil (lodash.baseIsEqual o) 0 owners) as Hsome.
  destruct (lodash.arraySome_unseen _ [] 0 owners) as [i|].
  - rewrite andb_true_r. split.
    + intros _. destruct (proj1 Hsome) as (x & Hin & Hx); [eauto|].
      by exists owners, x.
    + intros (? & x & [= <-] & Hin & Hx).
      destruct owners; [by apply elem_of_nil in Hin | done].
  - rewrite andb_false_r. split; [done|].
    intros (? & x & [= <-] & Hin & Hx).
    destruct (proj2 Hsome) as [? [=]]. eauto.
Qed.

Lemma baseIsEqual_ownerReferences (o m : JsVal) :
  lodash.baseIsEqual (JObj [("ownerReferences", JArr [o])]) m = true
  ↔ ∃ metadata owners x,
      m = JObj metadata
      ∧ obj_get "ownerReferences" metadata = Some (JArr owners)
      ∧ x ∈ owners ∧ lodash.baseIsEqual o x = true.
Proof.
  destruct m as [| | | | |elems|metadata];
    try (split; [done | by intros (? & ? & ? & [=] & _)]).
  change (lodash.baseIsEqual (JObj [("ownerReferences", JArr [o])]) (JObj metadata))
    with (match obj_get "ownerReferences" metadata with
          | Some w => lodash.baseIsEqual (JArr [o]) w && true
          | None => false
          end).
  destruct (obj_get "ownerReferences" metadata) as [w|] eqn:Hw.
  - rewrite andb_true_r, baseIsEqual_one_of. split.
    + intros (owners & x & -> & Hin & Hx). by exists metadata, owners, x.
    + intros (? & owners & x & [= <-] & Hget & Hin & Hx).
      rewrite Hw in Hget. injection Hget as ->. eauto.
  - split; [done|]. intros (? & ? & ? & [= <-] & Hget & _). congruence.
Qed.

(** [baseIsMatch] against a source with one property, whose value is an
    object or an array. *)
Lemma baseIsMatch_one_object (object : JsVal) (key : string) (srcValue : JsVal) :
  lodash.baseIsMatch object [(key, srcValue, false)] =
    match object with
    | JUndefined | JNull => false
    | _ => lodash.has_prop object key
           && lodash.baseIsEqual srcValue (lodash.prop object key)
    end.
Proof.
  unfold lodash.baseIsMatch, forallb.
  destruct object; try done; by rewrite !andb_true_r.
Qed.

(** The filter of [fromCRD] accepts the objects whose
    [metadata.ownerReferences] is an array with an element that the owner
    reference matches. *)
Lemma matches_ownerFilter (o item : JsVal) :
  lodash.matches (ownerFilter o) item = true
  ↔ ∃ props metadata owners x,
      item = JObj props
      ∧ obj_get "metadata" props = Some (JObj metadata)
      ∧ obj_get "ownerReferences" metadata = Some (JArr owners)
      ∧ x ∈ owners ∧ lodash.baseIsEqual o x = true.
Proof.
  change (lodash.matches (ownerFilter o) item)
    with (lodash.strict_eq item (ownerFilter o)
          || lodash.baseIsMatch item
               [("metadata", JObj [("ownerReferences", JArr [o])], false)]).
  assert (lodash.strict_eq item (ownerFilter o) = false) as -> by (by destruct item).
  rewrite orb_false_l, baseIsMatch_one_object.
  unfold lodash.has_prop, lodash.prop. rewrite get_prop_metadata.
  destruct item as [| | | | |elems|props];
    try (split; [done | by intros (? & ? & ? & ? & [=] & _)]).
  destruct (obj_get "metadata" props) as [m|] eqn:Hm.
  - rewrite bool_decide_eq_true_2 by eauto.
    change (default JUndefined (Some m)) with m.
    rewrite andb_true_l, baseIsEqual_ownerReferences. split.
    + intros (metadata & owners & x & -> & Hget & Hin & Hx).
      by exists props, metadata, owners, x.
    + intros (? & metadata & owners & x & [= <-] & Hget & Hrest).
      rewrite Hm in Hget. injection Hget as ->. eauto.
  - rewrite bool_decide_eq_false_2 by (by intros [? [=]]).
    split; [done|].
    intros (? & ? & ? & ? & [= <-] & Hget & _). congruence.
Qed.

Section OwnedItems.
Context `{KubeAPI}.

(** X3. Filtering is idempotent: what [getResource] returns for a fetched
    object is returned as it is when it is fetched and filtered again. *)
Theorem getResource_filtered_idempotent (this : ResourceRef.t) (resource : JsObject) :
  ResourceRef.getResource_filtered this (ResourceRef.getResource_filtered this resource)
  = ResourceRef.getResource_filtered this resource.
Proof.
  destruct (truthy (default JUndefined (obj_get "items" resource))) eqn:Ht.
  - rewrite (getResource_filtered_truthy this resource) by done.
    rewrite getResource_filtered_truthy by (by rewrite obj_get_set_eq).
    rewrite obj_get_set_eq. simpl.
    unfold lodash.filter. by rewrite filter_twice, obj_set_twice.
  - unfold ResourceRef.getResource_filtered. by rewrite !Ht.
Qed.

(** X4. The reference that [fromCRD] builds for the owner
    [{ name, kind }] keeps, of a fetched list, exactly the items that have
    an owner reference of this name and kind, in their order. *)
Theorem getResource_keeps_owned (r : IClusterServiceVersionCRDResource.t)
    (ns name kind : string) (ref : ResourceRef.t) (fetched : JsObject)
    (elems : list JsVal) :
  ResourceRef.fromCRD r ns (JObj [("name", JStr name); ("kind", JStr kind)]) = Ok ref →
  Kube_getResource (ResourceRef.apiVersion ref)
    (Kube_resourcePlural (ResourceRef.kind ref))
    (ResourceRef.namespace ref) (ResourceRef.name ref) = Resolved fetched →
  obj_get "items" fetched = Some (JArr elems) →
  ∃ result kept,
    ResourceRef.getResource ref = Resolved result
    ∧ obj_get "items" result = Some (JArr kept)
    ∧ kept `sublist_of` elems
    ∧ ∀ item, item ∈ kept ↔ item ∈ elems ∧ lists_owner name kind item.
Proof.
  intros Href Hreq Hitems.
  assert (ResourceRef.filter ref
          = ownerFilter (JObj [("name", JStr name); ("kind", JStr kind)])) as Hfilter.
  { destruct (decide (ns = "")) as [->|Hne]; [done|].
    unfold ResourceRef.fromCRD in Href.
    rewrite (constructor_Ok _ _ _ ns) in Href by done. by injection Href as <-. }
  unfold ResourceRef.getResource. rewrite Hreq. simpl.
  rewrite getResource_filtered_truthy by (by rewrite Hitems).
  rewrite Hitems, Hfilter. simpl.
  eexists _, _. split; [reflexivity|]. split; [apply obj_get_set_eq|]. split.
  - clear. induction elems as [|x elems IH]; simpl; [constructor|].
    destruct (lodash.matches _ x); by constructor.
  - intros item. rewrite !list_elem_of_In, filter_In, matches_ownerFilter.
    apply and_iff_compat_l. unfold lists_owner. split.
    + intros (props & metadata & owners & x & -> & Hm & Ho & Hin & Hx).
      apply baseIsEqual_name_kind in Hx as (owner & -> & Hn & Hk).
      by exists props, metadata, owner, owners.
    + intros (props & metadata & owner & owners & -> & Hm & Ho & Hin & Hn & Hk).
      exists props, metadata, owners, (JObj owner). repeat split; try done.
      apply baseIsEqual_name_kind. eauto.
Qed.

End OwnedItems.

Lemma getResource_keeps_owned_witness :
  ∃ ref result,
    ResourceRef.fromCRD (H := Sample.kube) (Sample.owned "Deployment" "") "team-a"
      (JObj [("name", JStr "foo"); ("kind", JStr "Foo")]) = Ok ref
    ∧ ResourceRef.getResource (H := Sample.kube) ref = Resolved result
    ∧ ∃ kept, obj_get "items" result = Some (JArr kept)
              ∧ ∀ item, item ∈ kept ↔ item ∈ Sample.deployments ∧ lists_owner "foo" "Foo" item.
Proof.
  destruct (getResource_keeps_owned (H := Sample.kube) (Sample.owned "Deployment" "")
              "team-a" "foo" "Foo" _ Sample.deploymentList Sample.deployments
              eq_refl eq_refl eq_refl)
    as (result & kept & Hget & Hitems & _ & Hkept).
  eexists _, result. split; [reflexivity|]. split; [exact Hget|].
  exists kept. split; [exact Hitems | exact Hkept].
Defined.

(** ** Updates of the operator-instance component *)

Section LifecycleFurther.
Context `{KubeAPI}.
Variable props : OperatorInstance.IOperatorInstanceProps.

Import OperatorInstance.

(** X6. An update in which neither the namespace nor the reference of the
    [csv] or of the [resource] prop has changed calls nothing and leaves the
    state as it is: the update that follows a [setState] of the component
    does not set the state again. *)
Theorem componentDidUpdate_unchanged (prevProps : IOperatorInstanceProps)
    (s : IOperatorInstanceState) :
  namespace prevProps = namespace props →
  strict_neq_ref (csv props) (csv prevProps) = false →
  strict_neq_ref (resource props) (resource prevProps) = false →
  run (componentDidUpdate props prevProps) s = (Ok tt, {| state := s; calls := [] |}).
Proof.
  intros Hns Hcsv Hres. rewrite componentDidUpdate_outcome by done.
  by rewrite Hcsv, Hres.
Qed.

(** X18. While the [resource] prop is undefined, an update in an unchanged
    namespace calls nothing and leaves the state as it is, also when the CSV
    has just arrived and also when the state holds a crd. *)
Theorem componentDidUpdate_without_resource (prevProps : IOperatorInstanceProps)
    (s : IOperatorInstanceState) :
  namespace prevProps = namespace props →
  resource props = None →
  run (componentDidUpdate props prevProps) s = (Ok tt, {| state := s; calls := [] |}).
Proof.
  intros Hns Hres. rewrite componentDidUpdate_outcome by done. rewrite Hres.
  destruct (_ || _); [|done]. destruct (csv props); simpl; by destruct (crd s).
Qed.

(** X7. Whatever the props, an update calls nothing but [getResource] and
    [setState], and no [setState] of it touches [modalIsOpen]: the modal
    stays as it is. *)
Theorem componentDidUpdate_keeps_modal (prevProps : IOperatorInstanceProps)
    (s : IOperatorInstanceState) :
  modalIsOpen (state_after_update props prevProps s) = modalIsOpen s
  ∧ ∀ c, c ∈ calls_of_update props prevProps s →
      match c with
      | call_getResource _ _ _ _ => True
      | call_setState u => upd_modalIsOpen u = None
      | call_deleteResource _ _ _ | call_push _ => False
      end.
Proof.
  unfold calls_of_update, state_after_update.
  destruct (String.eqb_spec (namespace prevProps) (namespace props)) as [Hsame|Hns].
  - rewrite componentDidUpdate_outcome by done.
    destruct (_ || _); simpl; [|split; [done | by intros c ?%elem_of_nil]].
    destruct (csv props) as [c|], (resource props) as [r|]; simpl.
    all: first [ destruct (List.find _ _) as [found|]
               | destruct (crd s) as [found|] ]; simpl;
      try destruct (collectRefs _ _ _) as [res|e]; simpl.
    all: split; [done|].
    all: intros c' Hin;
      repeat (apply elem_of_cons in Hin as [->|Hin]; [done|]);
      by apply elem_of_nil in Hin.
  - unfold run, componentDidUpdate.
    apply String.eqb_neq in Hns. rewrite Hns. simpl. split; [done|].
    intros c' Hin. apply elem_of_cons in Hin as [->|Hin]; [done|].
    by apply elem_of_nil in Hin.
Qed.


Lemma collectRef_empty_namespace (ownerRef : JsVal) (acc : IPartialAppViewState.t)
    (r : IClusterServiceVersionCRDResource.t) :
  namespace props = "" →
  collectRef props ownerRef acc r =
    Throw (Error ("Namespace missing for resource "
                  ++ IClusterServiceVersionCRDResource.name r
                  ++ ", define a default namespace")).
Proof.
  intros Hns. unfold collectRef. rewrite Hns.
  change (ResourceRef.fromCRD r "" ownerRef)
    with (@Throw ResourceRef.t
            (Error ("Namespace missing for resource "
                    ++ IClusterServiceVersionCRDResource.name r
                    ++ ", define a default namespace"))).
  simpl. by repeat case_match.
Qed.

(** X9. In the empty namespace, an update that finds a crd with owned
    resources calls [setState] with the crd and then throws, on the first of
    them: it makes no other call, so [setState] is not called with
    references. *)
Theorem componentDidUpdate_empty_namespace (prevProps : IOperatorInstanceProps)
    (s : IOperatorInstanceState) (v : Ref IClusterServiceVersion.t)
    (r : Ref IResource.t) (c : IClusterServiceVersionCRD.t)
    (first : IClusterServiceVersionCRDResource.t)
    (others : list IClusterServiceVersionCRDResource.t) :
  namespace props = "" →
  namespace prevProps = "" →
  csv_or_resource_changed props prevProps →
  csv props = Some v →
  resource props = Some r →
  List.find (λ c, String.eqb (IClusterServiceVersionCRD.kind c)
                    (IResource.kind (deref r))) (ownedCRDs (deref v)) = Some c →
  IClusterServiceVersionCRD.resources c = first :: others →
  (run (componentDidUpdate props prevProps) s).1 =
    Throw (Error ("Namespace missing for resource "
                  ++ IClusterServiceVersionCRDResource.name first
                  ++ ", define a default namespace"))
  ∧ calls_of_update props prevProps s = [call_setState (set_crd (Some c))].
Proof.
  intros Hns Hprev Hchanged Hcsv Hres Hfind Hfirst.
  unfold calls_of_update.
  rewrite componentDidUpdate_outcome by congruence.
  assert (collectRefs props c (deref r)
          = Throw (Error ("Namespace missing for resource "
                          ++ IClusterServiceVersionCRDResource.name first
                          ++ ", define a default namespace"))) as Hthrow.
  { unfold collectRefs. rewrite Hfirst. simpl.
    by rewrite collectRef_empty_namespace. }
  destruct Hchanged as [-> | ->]; rewrite ?orb_true_r; simpl.
  all: rewrite Hcsv, Hres; simpl; rewrite Hfind; simpl; by rewrite Hthrow.
Qed.

(** Membership of a call in a short list of calls. *)
Ltac calls_cases :=
  repeat
    match goal with
    | H : _ ∈ [] |- _ => by apply elem_of_nil in H
    | H : _ ∈ _ :: _ |- _ =>
        apply elem_of_cons in H as [H|H];
        [unfold set_resources, set_crd in H; simplify_eq|]
    end.

(** A [setState] of the references comes from the loop over the resources
    of the crd that the state holds after the update, run for the resource
    of the props: this crd is the one looked up in the CSV of the props, or,
    without a CSV, the one that the state held. *)
Lemma rebuild_from_collectRefs (prevProps : IOperatorInstanceProps)
    (s : IOperatorInstanceState) (result : IPartialAppViewState.t) :
  call_setState (set_resources result) ∈ calls_of_update props prevProps s →
  ∃ c r,
    resource props = Some r
    ∧ collectRefs props c (deref r) = Ok result
    ∧ crd (state_after_update props prevProps s) = Some c
    ∧ match csv props with
      | Some v =>
          List.find (λ c, String.eqb (IClusterServiceVersionCRD.kind c)
                            (IResource.kind (deref r))) (ownedCRDs (deref v)) = Some c
      | None => crd s = Some c
      end.
Proof.
  unfold calls_of_update, state_after_update.
  destruct (String.eqb_spec (namespace prevProps) (namespace props)) as [Hsame|Hns].
  - rewrite componentDidUpdate_outcome by done.
    destruct (_ || _); simpl; [|by intros ?%elem_of_nil].
    destruct (csv props) as [v|], (resource props) as [r|]; simpl.
    all: first [ destruct (List.find _ _) as [found|] eqn:Hcrd
               | destruct (crd s) as [found|] eqn:Hcrd ]; simpl;
      try destruct (collectRefs _ _ _) as [res|e] eqn:Hcollect; simpl.
    all: intros Hcall; calls_cases; subst.
    all: exists found, r; by rewrite ?Hcrd.
  - unfold run, componentDidUpdate.
    apply String.eqb_neq in Hns. rewrite Hns. simpl.
    intros Hcall. calls_cases.
Qed.

(** X13. Every reference that an update puts into a bucket is in the
    namespace of the props, which is not empty, is of the kind of its bucket,
    has the name, the kind and the API version of an owned resource of the
    crd that the state holds after the update, and carries the filter for
    the resource of the props as owner. This crd is the one looked up in the
    CSV of the props for the kind of the resource, or the one that the state
    held when the props have no CSV. *)
Theorem rebuilt_refs_wellformed (prevProps : IOperatorInstanceProps)
    (s : IOperatorInstanceState) (result : IPartialAppViewState.t) :
  call_setState (set_resources result) ∈ calls_of_update props prevProps s →
  ∃ c r,
    crd (state_after_update props prevProps s) = Some c
    ∧ match csv props with
      | Some v =>
          List.find (λ c, String.eqb (IClusterServiceVersionCRD.kind c)
                            (IResource.kind (deref r))) (ownedCRDs (deref v)) = Some c
      | None => crd s = Some c
      end
    ∧ resource props = Some r
    ∧ ∀ b ref, ref ∈ bucket b result →
        ResourceRef.namespace ref = namespace props
        ∧ namespace props ≠ ""
        ∧ bucketOf (ResourceRef.kind ref) = b
        ∧ ResourceRef.filter ref = ownerFilter (ownerRefOf (deref r))
        ∧ ∃ d, d ∈ IClusterServiceVersionCRD.resources c
               ∧ ResourceRef.kind ref = IClusterServiceVersionCRDResource.kind d
               ∧ ResourceRef.name ref = IClusterServiceVersionCRDResource.name d
               ∧ ResourceRef.apiVersion ref =
                   Kube_resourceAPIVersion (IClusterServiceVersionCRDResource.kind d).
Proof.
  intros (c & r & Hres & Hcollect & Hcrd & Hfound)%rebuild_from_collectRefs.
  exists c, r. split; [done|]. split; [done|]. split; [done|]. intros b ref Hin.
  apply collectRefs_buckets in Hcollect as [Hbuckets _].
  assert (Ok ref ∈ Ok <$> bucket b result) as Hok by (by apply list_elem_of_fmap_2).
  rewrite Hbuckets in Hok.
  apply list_elem_of_fmap in Hok as (d & Href & [Hb Hd]%list_elem_of_filter).
  symmetry in Href. destruct (decide (namespace props = "")) as [Hns|Hns].
  { rewrite Hns in Href. done. }
  unfold ResourceRef.fromCRD in Href.
  rewrite (constructor_Ok _ _ _ (namespace props)) in Href by done.
  injection Href as <-. simpl. repeat split; try done. by exists d.
Qed.

(** ** The deletion *)

(** X10. When [deleteResource] rejects, [handleDeleteClick] rejects with the
    same error after the one call: the modal is not closed, the state is as
    before and nothing is pushed. *)
Theorem handleDeleteClick_rejected (s : IOperatorInstanceState)
    (c : IClusterServiceVersionCRD.t) (e : JsError) :
  crd s = Some c →
  deleteResource props (namespace props)
    (before_first "." (IClusterServiceVersionCRD.name c)) (resource props) = Rejected e →
  run (handleDeleteClick props) s =
    (Throw e,
     {| state := s;
        calls := [call_deleteResource (namespace props)
                    (before_first "." (IClusterServiceVersionCRD.name c))
                    (resource props)] |}).
Proof.
  intros Hcrd Hrejected. unfold run.
  rewrite (handleDeleteClick_outcome _ _ c) by done. by rewrite Hrejected.
Qed.

(** X11. [handleDeleteClick] calls [deleteResource] exactly when the state
    holds a crd; without one it throws a [TypeError], calls nothing and
    leaves the state, with its modal, as it is. *)
Theorem deleteResource_called_iff_crd (s : IOperatorInstanceState) :
  ((∃ ns name r, call_deleteResource ns name r ∈ calls (run (handleDeleteClick props) s).2)
   ↔ is_Some (crd s))
  ∧ (crd s = None →
       ∃ message,
         run (handleDeleteClick props) s =
           (Throw (TypeError message), {| state := s; calls := [] |})).
Proof.
  unfold run. destruct (crd s) as [c|] eqn:Hcrd.
  - split; [|done]. split; [eauto|]. intros _.
    rewrite (handleDeleteClick_outcome _ _ c) by done. simpl.
    eexists _, _, _.
    destruct (deleteResource props _ _ _) as [[]|e]; simpl; apply list_elem_of_here.
  - rewrite handleDeleteClick_without_crd by done. simpl. split; [|eauto].
    split; [by intros (? & ? & ? & ?%elem_of_nil) | by intros [? [=]]].
Qed.

(** X12. The name under which [deleteResource] is called has no ['.'] in
    it, and the name of the crd of the state is this name, or this name
    followed by ['.'] and more. *)
Theorem deleteResource_name_is_plural (s : IOperatorInstanceState)
    (ns name : string) (r : option (Ref IResource.t)) :
  call_deleteResource ns name r ∈ calls (run (handleDeleteClick props) s).2 →
  ∃ c,
    crd s = Some c
    ∧ (∀ ch, ch ∈ String.list_ascii_of_string name → ch ≠ "."%char)
    ∧ (IClusterServiceVersionCRD.name c = name
       ∨ ∃ rest, IClusterServiceVersionCRD.name c = name ++ String "." rest).
Proof.
  unfold run. destruct (crd s) as [c|] eqn:Hcrd.
  - rewrite (handleDeleteClick_outcome _ _ c) by done. simpl.
    intros Hin. exists c. split; [done|].
    assert (name = before_first "." (IClusterServiceVersionCRD.name c)) as ->.
    { destruct (deleteResource props _ _ _) as [[]|e]; simpl in Hin.
      all: repeat (apply elem_of_cons in Hin as [Heq|Hin]; [by simplify_eq|]).
      all: by apply elem_of_nil in Hin. }
    destruct (before_first_spec "." (IClusterServiceVersionCRD.name c)) as [Hno Hsplit].
    split; [done|]. destruct Hsplit as [Heq | [rest Heq]]; eauto.
  - rewrite handleDeleteClick_without_crd by done. simpl. by intros ?%elem_of_nil.
Qed.

End LifecycleFurther.

(** ** The further properties on the sample cluster *)

Lemma componentDidUpdate_unchanged_witness :
  OperatorInstance.run
    (OperatorInstance.componentDidUpdate (H := Sample.kube)
       (Sample.loaded "team-a" true) (Sample.loaded "team-a" false))
    Sample.withCRD
  = (Ok tt, {| OperatorInstance.state := Sample.withCRD; OperatorInstance.calls := [] |}).
Proof.
  apply (componentDidUpdate_unchanged (H := Sample.kube) (Sample.loaded "team-a" true)
           (Sample.loaded "team-a" false) Sample.withCRD); reflexivity.
Defined.


Lemma componentDidUpdate_empty_namespace_witness :
  csv_or_resource_changed (Sample.loaded "" true) (Sample.loading "" true)
  ∧ (OperatorInstance.run
       (OperatorInstance.componentDidUpdate (H := Sample.kube)
          (Sample.loaded "" true) (Sample.loading "" true))
       OperatorInstance.initialState).1
    = Throw (Error "Namespace missing for resource , define a default namespace").
Proof.
  assert (csv_or_resource_changed (Sample.loaded "" true) (Sample.loading "" true))
    as Hchanged by (by left).
  split; [exact Hchanged|].
  exact (proj1
           (componentDidUpdate_empty_namespace (H := Sample.kube) (Sample.loaded "" true)
              (Sample.loading "" true) OperatorInstance.initialState
              (mkRef 2 Sample.csv) (mkRef 1 Sample.foo) Sample.fooCRD
              (Sample.owned "Deployment" "")
              [Sample.owned "Pod" ""; Sample.owned "Deployment" "extra"]
              eq_refl eq_refl Hchanged eq_refl eq_refl eq_refl eq_refl)).
Defined.

Lemma rebuilt_refs_wellformed_witness :
  OperatorInstance.call_setState (OperatorInstance.set_resources Sample.refs)
    ∈ calls_of_update (H := Sample.kube) (Sample.loaded "team-a" true)
        (Sample.loading "team-a" true) OperatorInstance.initialState
  ∧ ∀ ref, ref ∈ bucket DeployBucket Sample.refs →
      ResourceRef.namespace ref = "team-a"
      ∧ bucketOf (ResourceRef.kind ref) = DeployBucket.
Proof.
  assert (OperatorInstance.call_setState (OperatorInstance.set_resources Sample.refs)
            ∈ calls_of_update (H := Sample.kube) (Sample.loaded "team-a" true)
                (Sample.loading "team-a" true) OperatorInstance.initialState) as Hcall.
  { vm_compute. apply list_elem_of_further, list_elem_of_here. }
  split; [exact Hcall|].
  destruct (rebuilt_refs_wellformed (H := Sample.kube) _ _ _ _ Hcall)
    as (c & r & _ & _ & _ & Hrefs).
  intros ref Hin. destruct (Hrefs DeployBucket ref Hin) as (Hns & _ & Hkind & _).
  split; [exact Hns | exact Hkind].
Defined.

Lemma handleDeleteClick_rejected_witness :
  OperatorInstance.run (OperatorInstance.handleDeleteClick (Scenario.refused "team-a"))
    Sample.withCRD
  = (Throw Scenario.forbidden,
     {| OperatorInstance.state := Sample.withCRD;
        OperatorInstance.calls :=
          [OperatorInstance.call_deleteResource "team-a" "foos"
             (Some (mkRef 1 Sample.foo))] |}).
Proof.
  exact (handleDeleteClick_rejected (Scenario.refused "team-a") Sample.withCRD
           Sample.fooCRD Scenario.forbidden eq_refl eq_refl).
Defined.

Lemma deleteResource_called_iff_crd_witness :
  OperatorInstance.crd OperatorInstance.initialState = None
  ∧ ∃ message,
      OperatorInstance.run (OperatorInstance.handleDeleteClick (Sample.loaded "team-a" true))
        OperatorInstance.initialState
      = (Throw (TypeError message),
         {| OperatorInstance.state := OperatorInstance.initialState;
            OperatorInstance.calls := [] |}).
Proof.
  split; [reflexivity|].
  exact (proj2 (deleteResource_called_iff_crd (Sample.loaded "team-a" true)
                  OperatorInstance.initialState) eq_refl).
Defined.

Lemma deleteResource_name_is_plural_witness :
  OperatorInstance.call_deleteResource "team-a" "foos" (Some (mkRef 1 Sample.foo))
    ∈ OperatorInstance.calls
        (OperatorInstance.run
           (OperatorInstance.handleDeleteClick (Sample.loaded "team-a" true))
           Sample.withCRD).2
  ∧ ∃ c, OperatorInstance.crd Sample.withCRD = Some c
         ∧ (IClusterServiceVersionCRD.name c = "foos"
            ∨ ∃ rest, IClusterServiceVersionCRD.name c = "foos" ++ String "." rest).
Proof.
  assert (OperatorInstance.call_deleteResource "team-a" "foos" (Some (mkRef 1 Sample.foo))
            ∈ OperatorInstance.calls
                (OperatorInstance.run
                   (OperatorInstance.handleDeleteClick (Sample.loaded "team-a" true))
                   Sample.withCRD).2) as Hcall.
  { vm_compute. apply list_elem_of_here. }
  split; [exact Hcall|].
  destruct (deleteResource_name_is_plural (Sample.loaded "team-a" true) Sample.withCRD
              "team-a" "foos" _ Hcall) as (c & Hcrd & _ & Hname).
  exists c. split; [exact Hcrd | exact Hname].
Defined.

(** ** What [render] shows *)

Section RenderProperties.
Context `{ViewData}.
Variable props : OperatorInstance.IOperatorInstanceProps.
Variable s : OperatorInstance.IOperatorInstanceState.

Import OperatorInstance IPartialAppViewState View.

(** Texts and missing children have no type to list. *)
Lemma types_when_text {A} (x : option A) (f : A → string) :
  types (when x (λ a, text (f a))) = [].
Proof. by destruct x. Qed.

(** The card of the CSV has the same elements with and without a crd in the
    state. *)
Lemma types_renderCSVInfo (csv : IClusterServiceVersion.t) :
  types (renderCSVInfo props s csv) =
    [CardGrid "ChartInfo"; Card;
     CardIcon match csv_spec_icon csv with
              | first :: _ => "data:" ++ mediatype first ++ ";base64," ++ base64data first
              | [] => placeholder
              end;
     CardContent; h5_; p_ "margin-b-reset"; CardFooter; div_ None; div_ None; div_ None].
Proof. unfold renderCSVInfo. simpl. by rewrite !types_when_text. Qed.

Lemma types_resourceTables (resource : IResource.t) (refs : IPartialAppViewState.t)
    (fragment : Element) :
  resourceTables resource refs = Ok fragment →
  ∃ notes values,
    yaml_safeDump (resource_status resource) = Ok notes
    ∧ yaml_safeDump (resource_spec resource) = Ok values
    ∧ types fragment =
        [Fragment; AccessURLTable (serviceRefs refs) (ingressRefs refs);
         AppNotes "Status" notes;
         ResourceTable (secretRefs refs) "Secrets";
         ResourceTable (deployRefs refs) "Deployments";
         ResourceTable (statefulSetRefs refs) "StatefulSets";
         ResourceTable (daemonSetRefs refs) "DaemonSets";
         ResourceTable (serviceRefs refs) "Services";
         AppValues values].
Proof.
  unfold resourceTables.
  destruct (yaml_safeDump (resource_status resource)) as [notes|e]; simpl; [|done].
  destruct (yaml_safeDump (resource_spec resource)) as [values|e]; simpl; [|done].
  intros [= <-]. by exists notes, values.
Qed.

(** The elements of the view, in document order: the frame, the error if
    there is one, and, if there is a resource, the card of the CSV, the
    status, the button and the dialog, and the tables. *)
Lemma types_render (tree : Element) :
  render props s = Ok tree →
  ∃ notes values,
    (∀ r refs, resource props = Some r → resources s = Some refs →
       yaml_safeDump (resource_status (deref r)) = Ok notes
       ∧ yaml_safeDump (resource_spec (deref r)) = Ok values)
    ∧ types tree =
        ([section_ "AppView padding-b-big"; main_; LoadingWrapper (negb (isFetching props))]
         ++ from_option
              (λ e, [ErrorSelector e "get" ("Operator intance " ++ instanceName props)
                       (namespace props)]) [] (error props)
         ++ from_option
              (λ _,
                 [div_ (Some "row collapse-b-tablet"); div_ (Some "col-3")]
                 ++ from_option (λ v, types (renderCSVInfo props s (deref v))) [] (csv props)
                 ++ [div_ (Some "col-9"); div_ (Some "row padding-t-bigger");
                     div_ (Some "col-4")]
                 ++ from_option
                      (λ refs, [ApplicationStatus (deployRefs refs) (statefulSetRefs refs)
                                  (daemonSetRefs refs)]) [] (resources s)
                 ++ [div_ (Some "col-8 text-r");
                     button_ "button button-danger" this_openModal;
                     ConfirmDialog this_handleDeleteClick (modalIsOpen s) (isFetching props)
                       this_closeModal]
                 ++ from_option
                      (λ refs,
                         [Fragment; AccessURLTable (serviceRefs refs) (ingressRefs refs);
                          AppNotes "Status" notes;
                          ResourceTable (secretRefs refs) "Secrets";
                          ResourceTable (deployRefs refs) "Deployments";
                          ResourceTable (statefulSetRefs refs) "StatefulSets";
                          ResourceTable (daemonSetRefs refs) "DaemonSets";
                          ResourceTable (serviceRefs refs) "Services";
                          AppValues values]) [] (resources s))
              [] (resource props))%list.
Proof.
  unfold render.
  destruct (resource props) as [r|]; simpl.
  - destruct (resources s) as [refs|]; simpl.
    + destruct (resourceTables (deref r) refs) as [tables|e] eqn:Htables; simpl; [|done].
      intros [= <-].
      apply types_resourceTables in Htables as (notes & values & Hn & Hv & Htypes).
      exists notes, values. split; [by intros ? ? [= <-] [= <-]|].
      destruct (error props), (csv props); simpl; by rewrite ?app_nil_r, Htypes.
    + intros [= <-]. exists "", "". split; [done|].
      destruct (error props), (csv props); simpl; by rewrite ?app_nil_r.
  - intros [= <-]. exists "", "". split; [done|].
    by destruct (error props).
Qed.

(** Membership of a type in a list of types that is written out. *)
Ltac in_types :=
  repeat
    match goal with
    | H : _ ∈ [] |- _ => by apply elem_of_nil in H
    | H : _ ∈ _ :: _ |- _ => apply elem_of_cons in H as [H|H]; [simplify_eq|]
    | H : is_Some None |- _ => by destruct H
    end.

(** Finds a type in a list of types that is written out. *)
Ltac find_type :=
  repeat first [ apply list_elem_of_here | apply list_elem_of_further ].


(** X15. The resource tables that [render] shows are, once there are a
    resource and references, those of the secrets, deployments, stateful
    sets, daemon sets and services, in this order, and none otherwise. No
    component is handed a list of references other than these five and the
    ingresses: the bucket of the other resources is not shown. *)
Theorem render_tables (tree : Element) :
  render props s = Ok tree →
  tables tree =
    match resource props, resources s with
    | Some _, Some refs =>
        [("Secrets", secretRefs refs); ("Deployments", deployRefs refs);
         ("StatefulSets", statefulSetRefs refs); ("DaemonSets", daemonSetRefs refs);
         ("Services", serviceRefs refs)]
    | _, _ => []
    end
  ∧ ∀ l, l ∈ refs_passed tree →
      ∃ refs,
        resources s = Some refs
        ∧ is_Some (resource props)
        ∧ l ∈ [deployRefs refs; statefulSetRefs refs; daemonSetRefs refs;
               serviceRefs refs; ingressRefs refs; secretRefs refs].
Proof.
  intros (notes & values & _ & Htypes)%types_render.
  unfold tables, refs_passed. rewrite Htypes. clear Htypes.
  destruct (resource props) as [r|], (error props) as [e|], (csv props) as [v|],
    (resources s) as [refs|]; cbn [from_option]; rewrite ?types_renderCSVInfo; simpl.
  all: split; [done|].
  all: intros l Hin; in_types.
  all: exists refs; split; [done|]; split; [by eexists|]; find_type.
Qed.

(** X16. [render] throws only while it shows a resource with its
    references, and then what [yaml.safeDump] throws on the status of the
    resource or, if the status could be dumped, on its spec. *)
Theorem render_throws_iff (e : JsError) :
  render props s = Throw e
  ↔ ∃ r refs,
      resource props = Some r
      ∧ resources s = Some refs
      ∧ (yaml_safeDump (resource_status (deref r)) = Throw e
         ∨ (∃ notes, yaml_safeDump (resource_status (deref r)) = Ok notes)
           ∧ yaml_safeDump (resource_spec (deref r)) = Throw e).
Proof.
  unfold render, resourceTables.
  destruct (resource props) as [r|]; simpl;
    [|split; [done | by intros (? & ? & [=] & _)]].
  destruct (resources s) as [refs|]; simpl;
    [|split; [done | by intros (? & ? & _ & [=] & _)]].
  destruct (yaml_safeDump (resource_status (deref r))) as [notes|e1] eqn:Hstatus; simpl.
  - destruct (yaml_safeDump (resource_spec (deref r))) as [values|e2] eqn:Hspec; simpl.
    + split; [done|].
      intros (? & ? & [= <-] & _ & [? | [_ ?]]); congruence.
    + split.
      * intros [= ->]. exists r, refs. eauto 10.
      * intros (? & ? & [= <-] & _ & [? | [_ ?]]); congruence.
  - split.
    + intros [= ->]. exists r, refs. eauto.
    + intros (? & ? & [= <-] & _ & [? | [[? ?] _]]); congruence.
Qed.

(** X17. [render] shows the error of the props, if there is one, also
    beside the resource, as an error of the action [get] on
    [Operator intance <instanceName>]; it shows the card of the CSV when
    both the resource and the CSV are there, with the first icon of the CSV
    as a data URL, and with the placeholder if the CSV has no icon. *)
Theorem render_error_and_icon (tree : Element) :
  render props s = Ok tree →
  (∀ e action name ns,
     ErrorSelector e action name ns ∈ types tree
     ↔ error props = Some e ∧ action = "get"
       ∧ name = "Operator intance " ++ instanceName props ∧ ns = namespace props)
  ∧ (∀ icon,
       CardIcon icon ∈ types tree
       ↔ ∃ r v,
           resource props = Some r ∧ csv props = Some v
           ∧ icon = match csv_spec_icon (deref v) with
                    | first :: _ =>
                        "data:" ++ mediatype first ++ ";base64," ++ base64data first
                    | [] => placeholder
                    end).
Proof.
  intros (notes & values & _ & ->)%types_render.
  destruct (resource props) as [r|], (error props) as [e|], (csv props) as [v|],
    (resources s) as [refs|]; cbn [from_option]; rewrite ?types_renderCSVInfo; simpl.
  all: split; intros; (split; [intros Hin; in_types; eauto 10|]).
  all: intros Hshown;
    repeat
      match goal with
      | H : _ ∧ _ |- _ => destruct H
      | H : ∃ _, _ |- _ => destruct H
      end;
    simplify_eq; find_type.
Qed.

End RenderProperties.


Lemma render_tables_witness :
  ∃ tree,
    View.render (H := Scenario.view) (Sample.loaded "team-a" true) Scenario.withRefs
      = Ok tree
    ∧ fst <$> View.tables tree
      = ["Secrets"; "Deployments"; "StatefulSets"; "DaemonSets"; "Services"].
Proof.
  eexists. split; [reflexivity|].
  exact (f_equal (fmap fst)
           (proj1 (render_tables (H := Scenario.view) (Sample.loaded "team-a" true)
                     Scenario.withRefs _ eq_refl))).
Defined.

Lemma render_throws_iff_witness :
  View.render (H := Scenario.viewWithoutStatus) (Sample.loaded "team-a" true)
    Scenario.withRefs
  = Throw (Error "unacceptable kind of an object to dump [object Undefined]").
Proof.
  apply (render_throws_iff (H := Scenario.viewWithoutStatus) (Sample.loaded "team-a" true)
           Scenario.withRefs).
  exists (mkRef 1 Sample.foo), Sample.refs. split; [reflexivity|].
  split; [reflexivity|]. left. reflexivity.
Defined.

Lemma render_error_and_icon_witness :
  ∃ tree,
    View.render (H := Scenario.view) (Sample.loaded "team-a" true) Sample.withCRD
      = Ok tree
    ∧ CardIcon "data:image/png;base64,iVBORw0KGgo=" ∈ View.types tree.
Proof.
  eexists. split; [reflexivity|].
  apply (render_error_and_icon (H := Scenario.view) (Sample.loaded "team-a" true)
           Sample.withCRD _ eq_refl).
  by exists (mkRef 1 Sample.foo), (mkRef 2 Sample.csv).
Defined.

Lemma componentDidUpdate_without_resource_witness :
  csv_or_resource_changed (Scenario.withoutResource "team-a") (Sample.loading "team-a" true)
  ∧ OperatorInstance.run
      (OperatorInstance.componentDidUpdate (H := Sample.kube)
         (Scenario.withoutResource "team-a") (Sample.loading "team-a" true))
      Sample.withCRD
    = (Ok tt, {| OperatorInstance.state := Sample.withCRD; OperatorInstance.calls := [] |}).
Proof.
  split; [by left|].
  exact (componentDidUpdate_without_resource (H := Sample.kube)
           (Scenario.withoutResource "team-a") (Sample.loading "team-a" true)
           Sample.withCRD eq_refl eq_refl).
Defined.

(** ** The deletion without a crd *)

(** C6. The claim fails on the code where the state has no crd. The instance
    [foo] has arrived and its CSV has not, so that the update finds no crd;
    the user opens the modal, which [render] shows open with
    [handleDeleteClick] to confirm. On the confirmation [handleDeleteClick]
    throws a [TypeError] from [crd!.name]: [deleteResource] is not called,
    the modal stays open and nothing is pushed. *)
Theorem handleDeleteClick_throws_on_confirm_without_crd :
  let props := Scenario.withoutCSV "team-a" 1 in
  let arrived :=
    OperatorInstance.state
      (OperatorInstance.run
         (OperatorInstance.componentDidUpdate (H := Sample.kube) props
            (Sample.loading "team-a" true))
         OperatorInstance.initialState).2 in
  let opened :=
    OperatorInstance.state (OperatorInstance.run OperatorInstance.openModal arrived).2 in
  opened = Scenario.confirming
  ∧ (∃ tree,
       View.render (H := Scenario.view) props opened = Ok tree
       ∧ ConfirmDialog this_handleDeleteClick true false this_closeModal ∈ View.types tree)
  ∧ ∃ message,
      OperatorInstance.run (OperatorInstance.handleDeleteClick props) opened
      = (Throw (TypeError message),
         {| OperatorInstance.state := Scenario.confirming;
            OperatorInstance.calls := [] |}).
Proof.
  intros props arrived opened.
  assert (opened = Scenario.confirming) as Hopened by reflexivity.
  split; [exact Hopened|]. rewrite Hopened. split.
  - eexists. split; [reflexivity|]. simpl.
    repeat first [ apply list_elem_of_here | apply list_elem_of_further ].
  - eexists. reflexivity.
Qed.
